(** * go-run: running commands locally (os/exec) and remotely (ssh)

    A shallow embedding of package [run] (runner.go, local.go, remote.go,
    std_runner.go, doc.go).  The package is glue around library calls, so the
    embedding makes every library call explicit:

    - the operating system and the libraries ([os/exec], [os/user],
      [path/filepath], [net], [io/ioutil], [x/crypto/ssh]) are an oracle
      record [OS] that answers each call;
    - every call that matters for ordering is logged in a trace of [event]s;
    - Go's [return] in the middle of a function is an early-return monad
      over the mutable state the function touches. *)

From Stdlib Require Import String Ascii ZArith NArith List Bool Lia.
Import ListNotations.
Local Open Scope string_scope.
Local Open Scope Z_scope.

(* ================================================================== *)
(** * Go values *)
(* ================================================================== *)

(** An [error] interface value.  The two type switches of the package look
    at the dynamic type only, so the dynamic types that matter are
    constructors; every error carries the text its [Error()] method gives. *)
Inductive error : Type :=
| ExecExitError (msg : string)   (* *exec.ExitError *)
| SshExitError (msg : string)    (* *ssh.ExitError *)
| OtherError (msg : string).     (* any other dynamic type *)

Definition Error (e : error) : string :=
  match e with
  | ExecExitError m | SshExitError m | OtherError m => m
  end.

(** [io.Reader] and [io.Writer] interface values are identified by a name;
    the [nil] interface is [None]. *)
Definition Reader := nat.
Definition Writer := nat.

Inductive stream : Type := StdoutS | StderrS.

Definition stream_eqb (a b : stream) : bool :=
  match a, b with
  | StdoutS, StdoutS | StderrS, StderrS => true
  | _, _ => false
  end.

(** The four values every [Run] and [Shell] returns. *)
Record Result : Type := mkResult {
  r_stdout : string;
  r_stderr : string;
  r_code : Z;
  r_err : option error
}.

(** The double quote character, for the format strings that contain one. *)
Definition dquote : string := String (ascii_of_nat 34) EmptyString.

(** [strings.Join(elems, sep)]. *)
Definition Join (elems : list string) (sep : string) : string :=
  String.concat sep elems.

(* ------------------------------------------------------------------ *)
(** ** Decimal numbers: [strconv.Itoa], [strconv.Atoi] *)
(* ------------------------------------------------------------------ *)

Definition digit_char (d : N) : ascii := ascii_of_N (48 + d).

Definition is_digit (c : ascii) : bool :=
  let n := N_of_ascii c in ((48 <=? n) && (n <=? 57))%N.

Definition digit_val (c : ascii) : Z := Z.of_N (N_of_ascii c) - 48.

(** Digits of [n], most significant first, pushed in front of [acc]. *)
Fixpoint utoa_aux (fuel : nat) (n : N) (acc : string) : string :=
  match fuel with
  | O => acc
  | S fuel' =>
      let acc' := String (digit_char (n mod 10)) acc in
      if (n / 10 =? 0)%N then acc' else utoa_aux fuel' (n / 10) acc'
  end.

Definition utoa (n : N) : string :=
  utoa_aux (S (N.to_nat (N.log2 n))) n "".

(** [strconv.Itoa] (also what [%d] and, for an int, [%v] print). *)
Definition Itoa (z : Z) : string :=
  if z <? 0 then "-" ++ utoa (Z.to_N (- z)) else utoa (Z.to_N z).

(** The digit loop of [strconv.Atoi]: [n = n*10 + int(ch - '0')], a
    character outside ['0'..'9'] is a syntax error. *)
Fixpoint parse_digits (s : string) (acc : Z) : option Z :=
  match s with
  | EmptyString => Some acc
  | String c s' =>
      if is_digit c then parse_digits s' (acc * 10 + digit_val c) else None
  end.

Definition maxInt : Z := 2 ^ 63 - 1.
Definition minInt : Z := - 2 ^ 63.

(** [strconv.Atoi] on a 64-bit platform: an optional sign, at least one
    digit, and a value that fits in [int]. *)
Definition Atoi (s : string) : error + Z :=
  let syntax := OtherError ("strconv.Atoi: parsing " ++ dquote ++ s ++ dquote ++ ": invalid syntax") in
  let range := OtherError ("strconv.Atoi: parsing " ++ dquote ++ s ++ dquote ++ ": value out of range") in
  let '(neg, body) :=
    match s with
    | String "-"%char rest => (true, rest)
    | String "+"%char rest => (false, rest)
    | _ => (false, s)
    end in
  match body with
  | EmptyString => inl syntax
  | _ =>
      match parse_digits body 0 with
      | None => inl syntax
      | Some n =>
          let v := if neg then - n else n in
          if (minInt <=? v) && (v <=? maxInt) then inr v else inl range
      end
  end.

(* ------------------------------------------------------------------ *)
(** ** The two regular expressions *)
(* ------------------------------------------------------------------ *)

(** Both expressions have the shape [^<literal>([0-9]+)$]: a literal
    prefix, then one or more digits up to the end of the text. *)

Fixpoint strip_prefix (p s : string) : option string :=
  match p with
  | EmptyString => Some s
  | String a p' =>
      match s with
      | EmptyString => None
      | String b s' => if Ascii.eqb a b then strip_prefix p' s' else None
      end
  end.

Fixpoint all_digits (s : string) : bool :=
  match s with
  | EmptyString => true
  | String c s' => is_digit c && all_digits s'
  end.

(** [regexp.MustCompile("^" + literal + "([0-9]+)$").FindStringSubmatch(s)]:
    [nil] when there is no match, else the whole match and the group. *)
Definition FindStringSubmatch (literal s : string) : option (list string) :=
  match strip_prefix literal s with
  | Some digits =>
      match digits with
      | EmptyString => None
      | _ => if all_digits digits then Some [s; digits] else None
      end
  | None => None
  end.

(* ================================================================== *)
(** * Early-return state monad *)
(* ================================================================== *)

(** A computation over a state [S] inside a Go function whose result type
    is [R]: it either goes on with a value ([inl]) or the function has
    executed a [return] ([inr]). *)
Definition M (S R A : Type) : Type := S -> (A + R) * S.

Definition ret {S R A} (a : A) : M S R A := fun s => (inl a, s).

Definition bind {S R A B} (m : M S R A) (k : A -> M S R B) : M S R B :=
  fun s =>
    match m s with
    | (inl a, s') => k a s'
    | (inr r, s') => (inr r, s')
    end.

(** Go's [return r]. *)
Definition Return {S R A} (r : R) : M S R A := fun s => (inr r, s).

Definition get {S R} : M S R S := fun s => (inl s, s).
Definition modify {S R} (f : S -> S) : M S R unit := fun s => (inl tt, f s).

(** Runs a function body to its [return]. *)
Definition run {S R} (m : M S R R) (s : S) : R * S :=
  match m s with
  | (inl r, s') => (r, s')
  | (inr r, s') => (r, s')
  end.

Declare Scope go_scope.
Delimit Scope go_scope with go.
Notation "x <- c ;; k" := (bind c (fun x => k))
  (at level 61, c at next level, right associativity) : go_scope.
Notation "c ;; k" := (bind c (fun _ => k))
  (at level 61, right associativity) : go_scope.
Notation "' pat <- c ;; k" := (bind c (fun x => let 'pat := x in k))
  (at level 61, pat pattern, c at next level, right associativity) : go_scope.

(** [if err != nil { return on_err(err) }]. *)
Definition check {S R} (err : option error) (on_err : error -> R) : M S R unit :=
  match err with
  | Some e => Return (on_err e)
  | None => ret tt
  end.

(** What every failing step of [exec] returns: [return "", "", 0, err]. *)
Definition failed (err : error) : Result := mkResult "" "" 0 (Some err).

(* ================================================================== *)
(** * The outside world *)
(* ================================================================== *)

(** Where a standard stream of a command or session is connected: not set,
    the pipe made by [StdoutPipe]/[StderrPipe], or a caller's writer. *)
Inductive wiring : Type :=
| Unset
| ToPipe
| ToWriter (w : Writer).

(** [exec.Cmd], the fields the package touches. *)
Record Cmd : Type := mkCmd {
  Path : string;
  Args : list string;
  cmd_Env : list string;
  cmd_Dir : string;
  cmd_Stdin : option Reader;
  cmd_Stdout : wiring;
  cmd_Stderr : wiring
}.

(** [exec.Command(name, arg...)]: sets only [Path] and [Args]; [Args] is the
    command name followed by the elements of [arg].  (A name without a path
    separator is resolved through [LookPath]; the resolution does not change
    [Args] and is left to [spawn].) *)
Definition exec_Command (name : string) (arg : list string) : Cmd :=
  mkCmd name (name :: arg) [] "" None Unset Unset.

(** How one child process behaves, as [os/exec] reports it. *)
Record process : Type := mkProcess {
  p_start : option error;        (* cmd.Start() *)
  p_stdout : string;             (* bytes the child writes to its stdout *)
  p_stderr : string;             (* bytes the child writes to its stderr *)
  p_readStdout : option error;   (* error of ioutil.ReadAll(stdoutPipe) *)
  p_readStderr : option error;   (* error of ioutil.ReadAll(stderrPipe) *)
  p_wait : option error          (* cmd.Wait() *)
}.

(** How one remote command behaves, as the ssh session reports it. *)
Record sproc : Type := mkSproc {
  sp_start : option string;      (* session.Start(cmdLine), first half of Run:
                                    the text of its error (never an exit error) *)
  sp_wait : option error;        (* session.Wait(), second half of Run *)
  sp_stdout : string;
  sp_stderr : string;
  sp_readStdout : option error;
  sp_readStderr : option error
}.

(** [user.User]. *)
Record User : Type := mkUser {
  Username : string;
  HomeDir : string
}.

Definition Signer := string.
Definition Sock := nat.

(** [ssh.AuthMethod]. *)
Inductive AuthMethod : Type :=
| ssh_Password (secret : string)
| ssh_PublicKeys (signers : list Signer).

Inductive HostKeyCallback : Type := InsecureIgnoreHostKey.

(** [ssh.ClientConfig]. *)
Record ClientConfig : Type := mkClientConfig {
  cc_User : string;
  cc_Auth : list AuthMethod;
  cc_HostKeyCallback : HostKeyCallback
}.

(** The answers of the operating system and of the libraries.  A failing
    call is [inl err] (or [Some err] when there is no value to return). *)
Record OS : Type := mkOS {
  (* os/exec *)
  cmd_Pipe : stream -> option error;      (* cmd.StdoutPipe / cmd.StderrPipe *)
  spawn : Cmd -> process;
  (* os/user, path/filepath *)
  user_Current : error + User;
  user_Lookup : string -> error + User;
  filepath_Join : list string -> string;
  (* os, net, ssh/agent, io/ioutil *)
  Getenv : string -> string;
  net_Dial : string -> string -> error + Sock;
  agent_Signers : Sock -> error + list Signer;
  ReadFile : string -> error + string;
  (* x/crypto/ssh *)
  ParsePrivateKey : string -> error + Signer;
  ssh_Dial : string -> string -> ClientConfig -> option error;
  client_NewSession : option error;
  session_Pipe : stream -> option error;  (* session.StdoutPipe / StderrPipe *)
  session_exec : string -> sproc;         (* the remote side sees one string *)
  session_Close : option error
}.

(** What is handed over for execution: an argument vector that [os/exec]
    passes to fork/exec as it is, or one command line that the ssh server
    gives to the login shell of the account. *)
Inductive command : Type :=
| LocalCmd (c : Cmd)
| SessionCmd (cmdLine : string).

(** The library calls of one [Run]/[Shell], in program order.  The package
    has no [go] statement: each call returns before the next one is made. *)
Inductive event : Type :=
| EvPipe (s : stream)            (* StdoutPipe() / StderrPipe() *)
| EvStart (c : command)          (* the process or remote command is started *)
| EvReadAll (s : stream)         (* ioutil.ReadAll on the pipe of [s] is called *)
| EvDrained (s : stream)         (* ... and has returned at end of file *)
| EvWait                         (* the wait for termination has returned *)
| EvCopied (s : stream) (w : Writer) (data : string)
                                 (* the library delivered [data] of [s] to [w] *)
| EvDial (addr : string)         (* ssh.Dial *)
| EvNewSession                   (* client.NewSession *)
| EvSessionClose.                (* session.Close *)

Definition emit {R} (e : event) : M (list event) R unit :=
  modify (fun tr => (tr ++ [e])%list).

(** The library copies a stream to the caller's writer while the command
    runs; the copy is complete when the wait returns. *)
Definition copied (s : stream) (w : wiring) (data : string) : list event :=
  match w with
  | ToWriter wr => [EvCopied s wr data]
  | _ => []
  end.

(* ================================================================== *)
(** * doc.go *)
(* ================================================================== *)

Definition DefaultShellExecutable : string := "/bin/sh".

(* ================================================================== *)
(** * local.go *)
(* ================================================================== *)

Module LocalConfig.
Record t : Type := mk {
  ShellExecutable : string;
  Env : list string;
  Dir : string;
  Stdin : option Reader;
  Stdout : option Writer;
  Stderr : option Writer
}.
(** [LocalConfig{}]. *)
Definition zero : t := mk "" [] "" None None None.
End LocalConfig.

Module Local.
Record t : Type := mk {
  ShellExecutable : string;
  Env : list string;
  Dir : string;
  Stdin : option Reader;
  Stdout : option Writer;
  Stderr : option Writer
}.

(** [new(Local)]. *)
Definition zero : t := mk "" [] "" None None None.

Definition set_ShellExecutable (v : string) (l : t) : t :=
  mk v (Env l) (Dir l) (Stdin l) (Stdout l) (Stderr l).
Definition set_Env (v : list string) (l : t) : t :=
  mk (ShellExecutable l) v (Dir l) (Stdin l) (Stdout l) (Stderr l).
Definition set_Dir (v : string) (l : t) : t :=
  mk (ShellExecutable l) (Env l) v (Stdin l) (Stdout l) (Stderr l).
Definition set_Stdin (v : option Reader) (l : t) : t :=
  mk (ShellExecutable l) (Env l) (Dir l) v (Stdout l) (Stderr l).
Definition set_Stdout (v : option Writer) (l : t) : t :=
  mk (ShellExecutable l) (Env l) (Dir l) (Stdin l) v (Stderr l).
Definition set_Stderr (v : option Writer) (l : t) : t :=
  mk (ShellExecutable l) (Env l) (Dir l) (Stdin l) (Stdout l) v.
End Local.

(** [NewLocal]: the shell is assigned only in the branch of the empty
    configuration field; there is no [else]. *)
Definition NewLocal (config : LocalConfig.t) : Local.t :=
  let local := Local.zero in
  let local :=
    if (String.length (LocalConfig.ShellExecutable config) =? 0)%nat
    then Local.set_ShellExecutable DefaultShellExecutable local
    else local in
  let local := Local.set_Env (LocalConfig.Env config) local in
  let local := Local.set_Dir (LocalConfig.Dir config) local in
  let local := Local.set_Stdin (LocalConfig.Stdin config) local in
  let local := Local.set_Stdout (LocalConfig.Stdout config) local in
  let local := Local.set_Stderr (LocalConfig.Stderr config) local in
  local.

Module LocalExec.
Import Local.
Local Open Scope go_scope.

Definition set_Stdout (w : wiring) (c : Cmd) : Cmd :=
  mkCmd (Path c) (Args c) (cmd_Env c) (cmd_Dir c) (cmd_Stdin c) w (cmd_Stderr c).
Definition set_Stderr (w : wiring) (c : Cmd) : Cmd :=
  mkCmd (Path c) (Args c) (cmd_Env c) (cmd_Dir c) (cmd_Stdin c) (cmd_Stdout c) w.

(** "Hook up standard files": a pipe when the field of [l] is nil, the
    caller's writer otherwise. *)
Definition hook (os : OS) (s : stream) (field : option Writer)
    (set : wiring -> Cmd -> Cmd) (cmd : Cmd) : M (list event) Result Cmd :=
  match field with
  | None =>
      emit (EvPipe s) ;;
      check (cmd_Pipe os s) failed ;;
      ret (set ToPipe cmd)
  | Some w => ret (set (ToWriter w) cmd)
  end.

(** "Process the I/O": [ioutil.ReadAll] on the pipe when the field of [l]
    is nil; the buffer stays nil otherwise. *)
Definition drain (s : stream) (field : option Writer) (data : string)
    (err : option error) : M (list event) Result string :=
  match field with
  | None =>
      emit (EvReadAll s) ;;
      check err failed ;;
      emit (EvDrained s) ;;
      ret data
  | Some _ => ret ""
  end.

(** The type switch on the error of [cmd.Wait]. *)
Definition decode (stdoutBuf stderrBuf : string) (code : Z) (err : option error)
    : M (list event) Result Result :=
  match err with
  | Some (ExecExitError msg as e) =>
      match FindStringSubmatch "exit status " (Error e) with
      | Some m =>
          match Atoi (nth 1 m "") with
          | inr code' => ret (mkResult stdoutBuf stderrBuf code' None)
          | inl err' => Return (failed err')
          end
      | None => ret (mkResult stdoutBuf stderrBuf code (Some e))
      end
  | Some e => Return (failed e)
  | None => ret (mkResult stdoutBuf stderrBuf code None)
  end.

Definition exec_body (os : OS) (l : t) (command : string) (args : list string)
    : M (list event) Result Result :=
  let code := 0 in
  let cmd := exec_Command command args in
  let cmd := mkCmd (Path cmd) (Args cmd) (Env l) (Dir l) (Stdin l)
                   (cmd_Stdout cmd) (cmd_Stderr cmd) in
  cmd <- hook os StdoutS (Stdout l) set_Stdout cmd ;;
  cmd <- hook os StderrS (Stderr l) set_Stderr cmd ;;
  let p := spawn os cmd in
  emit (EvStart (LocalCmd cmd)) ;;
  check (p_start p) failed ;;
  stdoutBuf <- drain StdoutS (Stdout l) (p_stdout p) (p_readStdout p) ;;
  stderrBuf <- drain StderrS (Stderr l) (p_stderr p) (p_readStderr p) ;;
  modify (fun tr => (tr ++ [EvWait]
                        ++ copied StdoutS (cmd_Stdout cmd) (p_stdout p)
                        ++ copied StderrS (cmd_Stderr cmd) (p_stderr p))%list) ;;
  decode stdoutBuf stderrBuf code (p_wait p).

(** [(l *Local) exec]: the four results and the trace of the call. *)
Definition exec (os : OS) (l : t) (command : string) (args : list string)
    : Result * list event :=
  run (exec_body os l command args) [].

Definition Run (os : OS) (l : t) (cmd : string) (args : list string)
    : Result * list event :=
  exec os l cmd args.

Definition Shell (os : OS) (l : t) (cmd : string) : Result * list event :=
  exec os l (ShellExecutable l) ["-c"; cmd].
End LocalExec.

(* ================================================================== *)
(** * std_runner.go *)
(* ================================================================== *)

Definition std : Local.t := NewLocal LocalConfig.zero.

Definition Run (os : OS) (cmd : string) (args : list string) : Result * list event :=
  LocalExec.Run os std cmd args.

Definition Shell (os : OS) (cmd : string) : Result * list event :=
  LocalExec.Shell os std cmd.

(* ================================================================== *)
(** * remote.go *)
(* ================================================================== *)

Definition defaultSSHPort : Z := 22.
Definition defaultSSHHostname : string := "localhost".
Definition defaultSSHKeyfileName : string := "id_rsa".

Module Credentials.
Record t : Type := mk {
  Hostname : string;
  Port : Z;
  Username : string;
  Password : string;
  PrivateKeyFilename : string
}.
Definition zero : t := mk "" 0 "" "" "".

Definition set_Hostname (v : string) (c : t) : t :=
  mk v (Port c) (Username c) (Password c) (PrivateKeyFilename c).
Definition set_Port (v : Z) (c : t) : t :=
  mk (Hostname c) v (Username c) (Password c) (PrivateKeyFilename c).
Definition set_Username (v : string) (c : t) : t :=
  mk (Hostname c) (Port c) v (Password c) (PrivateKeyFilename c).
Definition set_PrivateKeyFilename (v : string) (c : t) : t :=
  mk (Hostname c) (Port c) (Username c) (Password c) v.
End Credentials.

Definition defaultPrivateKeyFilename (os : OS) (username : string) : error + string :=
  match user_Lookup os username with
  | inl err => inl err
  | inr user => inr (filepath_Join os [HomeDir user; ".ssh"; defaultSSHKeyfileName])
  end.

Module RemoteConfig.
Record t : Type := mk {
  ShellExecutable : string;
  Stdin : option Reader;
  Stdout : option Writer;
  Stderr : option Writer;
  Credentials : Credentials.t
}.
Definition zero : t := mk "" None None None Credentials.zero.
End RemoteConfig.

(** [ssh.Session], the fields the package sets. *)
Record Session : Type := mkSession {
  s_Stdin : option Reader;
  s_Stdout : wiring;
  s_Stderr : wiring
}.

Module Remote.
Record t : Type := mk {
  ShellExecutable : string;
  Stdin : option Reader;
  Stdout : option Writer;
  Stderr : option Writer;
  Credentials : Credentials.t;
  sshSession : option Session
}.

Definition set_sshSession (v : option Session) (r : t) : t :=
  mk (ShellExecutable r) (Stdin r) (Stdout r) (Stderr r) (Credentials r) v.
End Remote.

(** [NewRemote]: the instance, or [nil] and the error of the user lookup. *)
Definition NewRemote (os : OS) (config : RemoteConfig.t) : error + Remote.t :=
  let shell :=
    if (String.length (RemoteConfig.ShellExecutable config) =? 0)%nat
    then DefaultShellExecutable
    else RemoteConfig.ShellExecutable config in
  let creds := RemoteConfig.Credentials config in
  let creds :=
    if String.eqb (Credentials.Hostname creds) ""
    then Credentials.set_Hostname defaultSSHHostname creds else creds in
  let creds :=
    if Credentials.Port creds =? 0
    then Credentials.set_Port defaultSSHPort creds else creds in
  let with_user : error + Credentials.t :=
    if String.eqb (Credentials.Username creds) ""
    then match user_Current os with
         | inl err => inl err
         | inr user => inr (Credentials.set_Username (Username user) creds)
         end
    else inr creds in
  match with_user with
  | inl err => inl err
  | inr creds =>
      let with_key : error + Credentials.t :=
        if String.eqb (Credentials.Password creds) ""
           && String.eqb (Credentials.PrivateKeyFilename creds) ""
        then match defaultPrivateKeyFilename os (Credentials.Username creds) with
             | inl err => inl err
             | inr keyFilename => inr (Credentials.set_PrivateKeyFilename keyFilename creds)
             end
        else inr creds in
      match with_key with
      | inl err => inl err
      | inr creds =>
          inr (Remote.mk shell (RemoteConfig.Stdin config) (RemoteConfig.Stdout config)
                         (RemoteConfig.Stderr config) creds None)
      end
  end.

(** What a call on a [*Remote] can touch: the receiver, the connections and
    sessions that are open on the network, and the trace. *)
Record RState : Type := mkRState {
  self : Remote.t;
  open_conns : nat;      (* ssh clients dialled and not closed *)
  open_sessions : nat;   (* sessions opened and not closed *)
  trace : list event
}.

(** A call returns its four values or panics. *)
Inductive Outcome : Type :=
| Ret (res : Result)
| Panic (msg : string).

Module RemoteExec.
Import Remote.
Local Open Scope go_scope.

Definition log {R} (evs : list event) : M RState R unit :=
  modify (fun st => mkRState (self st) (open_conns st) (open_sessions st)
                             (trace st ++ evs)%list).

Definition set_self {R} (f : t -> t) : M RState R unit :=
  modify (fun st => mkRState (f (self st)) (open_conns st) (open_sessions st) (trace st)).

Definition set_conns {R} (f : nat -> nat) : M RState R unit :=
  modify (fun st => mkRState (self st) (f (open_conns st)) (open_sessions st) (trace st)).

Definition set_sessions {R} (f : nat -> nat) : M RState R unit :=
  modify (fun st => mkRState (self st) (open_conns st) (f (open_sessions st)) (trace st)).

Definition getSSHAuths (os : OS) (r : t) : error + list AuthMethod :=
  let creds := Credentials r in
  if negb (String.eqb (Credentials.Password creds) "") then
    inr [ssh_Password (Credentials.Password creds)]
  else
    let sshAuthSockEnv := Getenv os "SSH_AUTH_SOCK" in
    if negb (String.eqb sshAuthSockEnv "") then
      match net_Dial os "unix" (Getenv os "SSH_AUTH_SOCK") with
      | inl err => inl err
      | inr sock =>
          match agent_Signers os sock with
          | inl err => inl err
          | inr signers => inr [ssh_PublicKeys signers]
          end
      end
    else
      match ReadFile os (Credentials.PrivateKeyFilename creds) with
      | inl err =>
          inl (OtherError ("run: could not read private key file '"
                           ++ Credentials.PrivateKeyFilename creds ++ "': " ++ Error err))
      | inr keyBuf =>
          match ParsePrivateKey os keyBuf with
          | inl err =>
              inl (OtherError ("run: could not use private key file '"
                               ++ Credentials.PrivateKeyFilename creds ++ "': " ++ Error err))
          | inr key => inr [ssh_PublicKeys [key]]
          end
      end.

(** [(r *Remote) open]: the client returned by [ssh.Dial] is a local
    variable; only the session is stored in the receiver. *)
Definition open (os : OS) : M RState (option error) (option error) :=
  st <- get ;;
  let creds := Credentials (self st) in
  auths <- match getSSHAuths os (self st) with
           | inl err => Return (Some err)
           | inr auths => ret auths
           end ;;
  let config := mkClientConfig (Credentials.Username creds) auths InsecureIgnoreHostKey in
  let addr := Credentials.Hostname creds ++ ":" ++ Itoa (Credentials.Port creds) in
  log [EvDial addr] ;;
  check (ssh_Dial os "tcp" addr config)
        (fun err => Some (OtherError ("run: connection to " ++ Credentials.Username creds
                                      ++ "@" ++ Credentials.Hostname creds
                                      ++ " failed: " ++ Error err))) ;;
  set_conns S ;;
  log [EvNewSession] ;;
  match client_NewSession os with
  | Some err =>
      set_self (set_sshSession None) ;;
      Return (Some err)
  | None =>
      set_sessions S ;;
      set_self (set_sshSession (Some (mkSession None Unset Unset))) ;;
      ret None
  end.

(** [(r *Remote) close]. *)
Definition close (os : OS) : M RState (option error) (option error) :=
  st <- get ;;
  match sshSession (self st) with
  | Some _ =>
      log [EvSessionClose] ;;
      set_sessions pred ;;
      let err := session_Close os in
      set_self (set_sshSession None) ;;
      Return err
  | None => ret None
  end.

Definition set_session {R} (f : Session -> Session) : M RState R unit :=
  set_self (fun r => set_sshSession (option_map f (sshSession r)) r).

Definition hook (os : OS) (s : stream) (field : option Writer)
    (set : wiring -> Session -> Session) : M RState Outcome unit :=
  match field with
  | None =>
      log [EvPipe s] ;;
      check (session_Pipe os s) (fun err => Ret (failed err)) ;;
      set_session (set ToPipe)
  | Some w => set_session (set (ToWriter w))
  end.

(** [session.Run(cmd)]: [Start], then, if the start succeeded, [Wait]. *)
Definition session_Run (os : OS) (cmdLine : string) : M RState Outcome (option error) :=
  let p := session_exec os cmdLine in
  log [EvStart (SessionCmd cmdLine)] ;;
  match sp_start p with
  | Some msg => ret (Some (OtherError msg))
  | None =>
      st <- get ;;
      let out := match sshSession (self st) with Some s => s_Stdout s | None => Unset end in
      let err := match sshSession (self st) with Some s => s_Stderr s | None => Unset end in
      log ([EvWait] ++ copied StdoutS out (sp_stdout p)
                    ++ copied StderrS err (sp_stderr p))%list ;;
      ret (sp_wait p)
  end.

(** The type switch on the error of [session.Run]: the code and the value
    left in [err]. *)
Definition decode (code : Z) (err : option error) : M RState Outcome (Z * option error) :=
  match err with
  | Some (SshExitError msg as e) =>
      match FindStringSubmatch "Process exited with status " (Error e) with
      | Some m =>
          match Atoi (nth 1 m "") with
          | inr code' => ret (code', None)
          | inl err' => Return (Ret (failed err'))
          end
      | None => ret (code, Some e)
      end
  | Some e => Return (Ret (failed e))
  | None => ret (code, None)
  end.

(** "Process the I/O": [buf, err = ioutil.ReadAll(pipe)] assigns [err]
    when the field is nil and leaves it alone otherwise. *)
Definition drain (s : stream) (field : option Writer) (data : string)
    (readErr : option error) (err : option error)
    : M RState Outcome (string * option error) :=
  match field with
  | None =>
      log [EvReadAll s] ;;
      check readErr (fun e => Ret (failed e)) ;;
      log [EvDrained s] ;;
      ret (data, None)
  | Some _ => ret ("", err)
  end.

Definition exec_body (os : OS) (args : list string) : M RState Outcome Outcome :=
  st <- get ;;
  let r := self st in
  match sshSession r with
  | None => Return (Panic "Session == nil")
  | Some _ =>
      set_session (fun s => mkSession (Stdin r) (s_Stdout s) (s_Stderr s)) ;;
      hook os StdoutS (Stdout r) (fun w s => mkSession (s_Stdin s) w (s_Stderr s)) ;;
      hook os StderrS (Stderr r) (fun w s => mkSession (s_Stdin s) (s_Stdout s) w) ;;
      let code := 0 in
      let cmdLine := Join args " " in
      let p := session_exec os cmdLine in
      err <- session_Run os cmdLine ;;
      '(code, err) <- decode code err ;;
      '(stdoutBuf, err) <- drain StdoutS (Stdout r) (sp_stdout p) (sp_readStdout p) err ;;
      '(stderrBuf, err) <- drain StderrS (Stderr r) (sp_stderr p) (sp_readStderr p) err ;;
      ret (Ret (mkResult stdoutBuf stderrBuf code err))
  end.

(** [(r *Remote) exec]: [defer r.close()] is registered once [open] has
    succeeded and runs on every way out of the body. *)
Definition exec (os : OS) (args : list string) (st : RState) : Outcome * RState :=
  let '(err, st) := run (open os) st in
  match err with
  | Some e => (Ret (failed e), st)
  | None =>
      let '(res, st) := run (exec_body os args) st in
      let '(_, st) := run (close os) st in
      (res, st)
  end.

Definition Run (os : OS) (cmd : string) (args : list string) (st : RState)
    : Outcome * RState :=
  let cmdLine := cmd ++ " " ++ Join args " " in
  exec os [cmdLine] st.

Definition Shell (os : OS) (cmd : string) (st : RState) : Outcome * RState :=
  let cmdLine := ShellExecutable (self st) ++ " -c " ++ dquote ++ cmd ++ dquote in
  exec os [cmdLine] st.

(** A receiver with no call in flight, on a network with nothing open. *)
Definition idle (r : t) : RState := mkRState r 0 0 [].
End RemoteExec.

(* ================================================================== *)
(** * Normal termination, as the libraries report it *)
(* ================================================================== *)

(** [cmd.Wait] after a child that exited with status [n]: nil for 0, else an
    [*exec.ExitError] whose text is the process state, "exit status n". *)
Definition exec_exit (n : Z) : option error :=
  if n =? 0 then None else Some (ExecExitError ("exit status " ++ Itoa n)).

(** [session.Wait] after a remote command that exited with status [n]: nil
    for 0, else an [*ssh.ExitError] whose text is the wait message,
    "Process exited with status n". *)
Definition ssh_exit (n : Z) : option error :=
  if n =? 0 then None else Some (SshExitError ("Process exited with status " ++ Itoa n)).

(* ================================================================== *)
(** * Sample worlds *)
(* ================================================================== *)

Module Sample.
Definition alice : User := mkUser "alice" "/home/alice".

(** Elements joined with the separator (what [filepath.Join] gives for
    elements that are already clean). *)
Definition join (elems : list string) : string := Join elems "/".

(** A world where every call succeeds: the child or remote command writes
    [out] and [err] and terminates with status [n]; no agent socket. *)
Definition world (out err : string) (n : Z) : OS :=
  mkOS (fun _ => None)
       (fun _ => mkProcess None out err None None (exec_exit n))
       (inr alice)
       (fun name => inr (mkUser name ("/home/" ++ name)))
       join
       (fun _ => "")
       (fun _ _ => inr 3%nat)
       (fun _ => inr ["agent-key-1"; "agent-key-2"])
       (fun _ => inr "PEM")
       (fun _ => inr "file-key")
       (fun _ _ _ => None)
       None
       (fun _ => None)
       (fun _ => mkSproc None (ssh_exit n) out err None None)
       None.

(** The same world with one answer replaced. *)
Definition with_spawn (f : Cmd -> process) (os : OS) : OS :=
  mkOS (cmd_Pipe os) f (user_Current os) (user_Lookup os) (filepath_Join os)
       (Getenv os) (net_Dial os) (agent_Signers os) (ReadFile os) (ParsePrivateKey os)
       (ssh_Dial os) (client_NewSession os) (session_Pipe os) (session_exec os)
       (session_Close os).

Definition with_session_exec (f : string -> sproc) (os : OS) : OS :=
  mkOS (cmd_Pipe os) (spawn os) (user_Current os) (user_Lookup os) (filepath_Join os)
       (Getenv os) (net_Dial os) (agent_Signers os) (ReadFile os) (ParsePrivateKey os)
       (ssh_Dial os) (client_NewSession os) (session_Pipe os) f
       (session_Close os).

Definition with_Getenv (f : string -> string) (os : OS) : OS :=
  mkOS (cmd_Pipe os) (spawn os) (user_Current os) (user_Lookup os) (filepath_Join os)
       f (net_Dial os) (agent_Signers os) (ReadFile os) (ParsePrivateKey os)
       (ssh_Dial os) (client_NewSession os) (session_Pipe os) (session_exec os)
       (session_Close os).

Definition with_users (cur : error + User) (look : string -> error + User) (os : OS) : OS :=
  mkOS (cmd_Pipe os) (spawn os) cur look (filepath_Join os)
       (Getenv os) (net_Dial os) (agent_Signers os) (ReadFile os) (ParsePrivateKey os)
       (ssh_Dial os) (client_NewSession os) (session_Pipe os) (session_exec os)
       (session_Close os).

Definition with_ReadFile (f : string -> error + string) (os : OS) : OS :=
  mkOS (cmd_Pipe os) (spawn os) (user_Current os) (user_Lookup os) (filepath_Join os)
       (Getenv os) (net_Dial os) (agent_Signers os) f (ParsePrivateKey os)
       (ssh_Dial os) (client_NewSession os) (session_Pipe os) (session_exec os)
       (session_Close os).

Definition with_ssh_Dial (f : string -> string -> ClientConfig -> option error) (os : OS) : OS :=
  mkOS (cmd_Pipe os) (spawn os) (user_Current os) (user_Lookup os) (filepath_Join os)
       (Getenv os) (net_Dial os) (agent_Signers os) (ReadFile os) (ParsePrivateKey os)
       f (client_NewSession os) (session_Pipe os) (session_exec os)
       (session_Close os).

(** The executors of the examples: all defaults. *)
Definition local : Local.t := NewLocal LocalConfig.zero.

Definition remote : Remote.t :=
  Remote.mk "/bin/sh" None None None
            (Credentials.mk "localhost" 22 "alice" "" "/home/alice/.ssh/id_rsa") None.
End Sample.

(* ================================================================== *)
(** * Reading traces and results *)
(* ================================================================== *)

(** The wiring [exec] gives a stream whose field is [field]. *)
Definition wire (field : option Writer) : wiring :=
  match field with
  | None => ToPipe
  | Some w => ToWriter w
  end.

(** The command [(l *Local) exec] hands to [cmd.Start]. *)
Definition local_command (l : Local.t) (command : string) (args : list string) : Cmd :=
  mkCmd command (command :: args) (Local.Env l) (Local.Dir l) (Local.Stdin l)
        (wire (Local.Stdout l)) (wire (Local.Stderr l)).

(** What [exec] returns for a stream that produced [data]. *)
Definition captured (field : option Writer) (data : string) : string :=
  match field with
  | None => data
  | Some _ => ""
  end.

(** Everything that was started during a trace. *)
Fixpoint starts (tr : list event) : list command :=
  match tr with
  | [] => []
  | EvStart c :: tr' => c :: starts tr'
  | _ :: tr' => starts tr'
  end.

(** Everything the library delivered from stream [s] to a caller's writer. *)
Fixpoint copies (s : stream) (tr : list event) : list (Writer * string) :=
  match tr with
  | [] => []
  | EvCopied s' w data :: tr' =>
      if stream_eqb s s' then (w, data) :: copies s tr' else copies s tr'
  | _ :: tr' => copies s tr'
  end.

Definition is_start (e : event) : bool :=
  match e with EvStart _ => true | _ => false end.
Definition is_readall (s : stream) (e : event) : bool :=
  match e with EvReadAll s' => stream_eqb s s' | _ => false end.
Definition is_drained (s : stream) (e : event) : bool :=
  match e with EvDrained s' => stream_eqb s s' | _ => false end.
Definition is_wait (e : event) : bool :=
  match e with EvWait => true | _ => false end.

Fixpoint index_of (p : event -> bool) (tr : list event) : option nat :=
  match tr with
  | [] => None
  | e :: tr' => if p e then Some O else option_map S (index_of p tr')
  end.

(** Both kinds of event occur, and the first [p] comes before the first [q]. *)
Definition precedes (p q : event -> bool) (tr : list event) : bool :=
  match index_of p tr, index_of q tr with
  | Some i, Some j => (i <? j)%nat
  | _, _ => false
  end.

(** The order the specification asks for when both streams are captured:
    start first; the two drains concurrent, that is, each one is begun
    before the other one has ended; the wait after both drains. *)
Definition spec_capture_order (tr : list event) : bool :=
  precedes is_start (is_readall StdoutS) tr
  && precedes is_start (is_readall StderrS) tr
  && precedes (is_readall StdoutS) (is_drained StderrS) tr
  && precedes (is_readall StderrS) (is_drained StdoutS) tr
  && precedes (is_drained StdoutS) is_wait tr
  && precedes (is_drained StderrS) is_wait tr.

(** One drain after the other: stdout is read to its end before the read
    of stderr is begun. *)
Definition sequential_drains (tr : list event) : bool :=
  precedes (is_readall StdoutS) (is_drained StdoutS) tr
  && precedes (is_drained StdoutS) (is_readall StderrS) tr
  && precedes (is_readall StderrS) (is_drained StderrS) tr.

(** Start, then the drains one after the other, then the wait. *)
Definition sequential_capture_order (tr : list event) : bool :=
  precedes is_start (is_readall StdoutS) tr
  && sequential_drains tr
  && precedes (is_drained StderrS) is_wait tr.

(** The argument vector the executed program sees: the vector itself when
    [os/exec] starts the program; for a session, whatever the remote side
    makes of the one string it receives. *)
Definition program_view (remote_side : string -> list string) (c : command) : list string :=
  match c with
  | LocalCmd cmd => Args cmd
  | SessionCmd cmdLine => remote_side cmdLine
  end.

(** Direct execution on a [Remote] is literal: some reading of the command
    line by the remote side gives back, for every command and arguments,
    exactly that command and those arguments. *)
Definition remote_run_literal (os : OS) (r : Remote.t) : Prop :=
  exists remote_side : string -> list string,
    forall cmd args c,
      In c (starts (trace (snd (RemoteExec.Run os cmd args (RemoteExec.idle r))))) ->
      program_view remote_side c = cmd :: args.

(** One stream, as the specification describes it: with a sink the returned
    string is empty and the sink gets the bytes; without one nothing goes to
    a sink and the bytes are returned.  What concerns the bytes holds for a
    call that returns no error. *)
Definition stream_contract (field : option Writer) (returned : string)
    (err : option error) (produced : string) (delivered : list (Writer * string)) : Prop :=
  match field with
  | Some w => returned = "" /\ (err = None -> delivered = [(w, produced)])
  | None => delivered = [] /\ (err = None -> returned = produced)
  end.

(** The child could be started, its captured output could be read to the
    end, and it exited with status [n]. *)
Definition runs_to_completion (p : process) (n : Z) : Prop :=
  p_start p = None /\ p_readStdout p = None /\ p_readStderr p = None /\
  p_wait p = exec_exit n.

(** The same for a remote command. *)
Definition session_runs_to_completion (p : sproc) (n : Z) : Prop :=
  sp_start p = None /\ sp_readStdout p = None /\ sp_readStderr p = None /\
  sp_wait p = ssh_exit n.

(** The connection and the session could be set up: authentication
    material, dial, session and pipes. *)
Definition session_set_up (os : OS) (r : Remote.t) : Prop :=
  (exists auths, RemoteExec.getSSHAuths os r = inr auths) /\
  (forall addr config, ssh_Dial os "tcp" addr config = None) /\
  client_NewSession os = None /\
  (forall s, session_Pipe os s = None).

(** The command line [Remote.Run] submits. *)
Definition remote_run_line (cmd : string) (args : list string) : string :=
  cmd ++ " " ++ Join args " ".

(** The command line [Remote.Shell] submits. *)
Definition remote_shell_line (r : Remote.t) (cmd : string) : string :=
  Remote.ShellExecutable r ++ " -c " ++ dquote ++ cmd ++ dquote.

(* ================================================================== *)
(** * runner.go: the two operations that execute *)
(* ================================================================== *)

(** A call of one of the two executing methods of the [Runner] interface. *)
Inductive call : Type :=
| RunCall (cmd : string) (args : list string)
| ShellCall (cmd : string).

(** The call on a [*Local]. *)
Definition local_call (os : OS) (l : Local.t) (c : call) : Result * list event :=
  match c with
  | RunCall cmd args => LocalExec.Run os l cmd args
  | ShellCall cmd => LocalExec.Shell os l cmd
  end.

(** The call on the standard runner (the package-level functions). *)
Definition std_call (os : OS) (c : call) : Result * list event :=
  match c with
  | RunCall cmd args => Run os cmd args
  | ShellCall cmd => Shell os cmd
  end.

(** The call on a [*Remote]. *)
Definition remote_call (os : OS) (c : call) (st : RState) : Outcome * RState :=
  match c with
  | RunCall cmd args => RemoteExec.Run os cmd args st
  | ShellCall cmd => RemoteExec.Shell os cmd st
  end.

(** The command a call on [l] starts. *)
Definition local_call_command (l : Local.t) (c : call) : Cmd :=
  match c with
  | RunCall cmd args => local_command l cmd args
  | ShellCall cmd => local_command l (Local.ShellExecutable l) ["-c"; cmd]
  end.

(** The command line a call on [r] submits. *)
Definition remote_call_line (r : Remote.t) (c : call) : string :=
  match c with
  | RunCall cmd args => remote_run_line cmd args
  | ShellCall cmd => remote_shell_line r cmd
  end.

(** A result obeys the discipline of the exit code: an error comes with
    code 0, a code other than 0 comes without an error. *)
Definition code_discipline (res : Result) : Prop :=
  (r_err res <> None -> r_code res = 0) /\ (r_code res <> 0 -> r_err res = None).

(** The same for a call that may panic: it does not, and what it returns
    obeys the discipline. *)
Definition outcome_discipline (o : Outcome) : Prop :=
  match o with
  | Ret res => code_discipline res
  | Panic _ => False
  end.

(* ================================================================== *)
(** * The formatting methods *)
(* ================================================================== *)

(** ** [strings.TrimSpace] *)

(** The ASCII white space of the fast path: tab, line feed, vertical tab,
    form feed, carriage return, space. *)
Definition asciiSpace (c : ascii) : bool :=
  match N_of_ascii c with
  | 9%N | 10%N | 11%N | 12%N | 13%N | 32%N => true
  | _ => false
  end.

Definition bytes (l : list N) : string :=
  fold_right (fun n s => String (ascii_of_N n) s) EmptyString l.

(** The UTF-8 encodings of the other runes of [unicode.IsSpace]: U+0085,
    U+00A0, U+1680, U+2000..U+200A, U+2028, U+2029, U+202F, U+205F, U+3000. *)
Definition unicode_spaces : list string :=
  map bytes
      [[194; 133]; [194; 160]; [225; 154; 128];
       [226; 128; 128]; [226; 128; 129]; [226; 128; 130]; [226; 128; 131];
       [226; 128; 132]; [226; 128; 133]; [226; 128; 134]; [226; 128; 135];
       [226; 128; 136]; [226; 128; 137]; [226; 128; 138];
       [226; 128; 168]; [226; 128; 169]; [226; 128; 175];
       [226; 129; 159]; [227; 128; 128]]%N.

(** The first pattern that is a prefix of [s], stripped. *)
Fixpoint strip_any (pats : list string) (s : string) : option string :=
  match pats with
  | [] => None
  | u :: pats' =>
      match strip_prefix u s with
      | Some rest => Some rest
      | None => strip_any pats' s
      end
  end.

(** One white-space rune at the front of [s], stripped: an ASCII space, or
    one of the multi-byte patterns. *)
Definition strip_space (pats : list string) (s : string) : option string :=
  match s with
  | EmptyString => None
  | String c rest => if asciiSpace c then Some rest else strip_any pats s
  end.

(** White-space runes are stripped from the front while there is one; the
    fuel is the number of bytes, and every step takes at least one. *)
Fixpoint trim_front (pats : list string) (fuel : nat) (s : string) : string :=
  match fuel with
  | O => s
  | S fuel' =>
      match strip_space pats s with
      | Some rest => trim_front pats fuel' rest
      | None => s
      end
  end.

Fixpoint rev_string (s : string) : string :=
  match s with
  | EmptyString => EmptyString
  | String c s' => rev_string s' ++ String c EmptyString
  end.

(** [strings.TrimLeftFunc(s, unicode.IsSpace)]. *)
Definition TrimLeft (s : string) : string :=
  trim_front unicode_spaces (String.length s) s.

(** [strings.TrimRightFunc(s, unicode.IsSpace)]: the last rune is a white
    space exactly when its encoding is a suffix of [s]. *)
Definition TrimRight (s : string) : string :=
  rev_string (trim_front (map rev_string unicode_spaces) (String.length s) (rev_string s)).

(** [strings.TrimSpace]. *)
Definition TrimSpace (s : string) : string := TrimRight (TrimLeft s).

(** ** local.go *)

Module LocalFormat.
(** [(l *Local) FormatRun]. *)
Definition FormatRun (l : Local.t) (cmd : string) (args : list string) : string :=
  TrimSpace (cmd ++ " " ++ Join args " ").

(** [(l *Local) FormatShell]: the format is [%s -c "%s"]. *)
Definition FormatShell (l : Local.t) (cmd : string) : string :=
  TrimSpace (Local.ShellExecutable l ++ " -c " ++ dquote ++ cmd ++ dquote).
End LocalFormat.

(** ** std_runner.go *)

Definition FormatRun (cmd : string) (args : list string) : string :=
  LocalFormat.FormatRun std cmd args.

Definition FormatShell (cmd : string) : string :=
  LocalFormat.FormatShell std cmd.

(** ** remote.go *)

Module RemoteFormat.
(** [(r *Remote) FormatRun]: the format is [ssh %s@%s %s %s]. *)
Definition FormatRun (r : Remote.t) (cmd : string) (args : list string) : string :=
  TrimSpace ("ssh " ++ Credentials.Username (Remote.Credentials r) ++ "@"
             ++ Credentials.Hostname (Remote.Credentials r) ++ " "
             ++ cmd ++ " " ++ Join args " ").

(** [(r *Remote) FormatShell]: the format is [ssh %s@%s %s -c "%s"]. *)
Definition FormatShell (r : Remote.t) (cmd : string) : string :=
  TrimSpace ("ssh " ++ Credentials.Username (Remote.Credentials r) ++ "@"
             ++ Credentials.Hostname (Remote.Credentials r) ++ " "
             ++ Remote.ShellExecutable r ++ " -c " ++ dquote ++ cmd ++ dquote).
End RemoteFormat.

(** ** Reading traces, continued *)

(** Every address that was dialled during a trace. *)
Fixpoint dials (tr : list event) : list string :=
  match tr with
  | [] => []
  | EvDial addr :: tr' => addr :: dials tr'
  | _ :: tr' => dials tr'
  end.

(** How often a kind of event occurs. *)
Definition occurrences (p : event -> bool) (tr : list event) : nat :=
  List.length (filter p tr).

Definition is_session_close (e : event) : bool :=
  match e with EvSessionClose => true | _ => false end.

(** An error whose dynamic type is one of the two exit errors. *)
Definition is_exit_error (e : error) : bool :=
  match e with
  | ExecExitError _ | SshExitError _ => true
  | OtherError _ => false
  end.

(** ** Reading formatted strings *)

(** A string that [TrimSpace] leaves alone and that neither begins nor ends
    with an ASCII white space. *)
Definition trimmed (s : string) : Prop :=
  TrimSpace s = s
  /\ match s with
     | EmptyString => True
     | String c _ => asciiSpace c = false
     end
  /\ match rev_string s with
     | EmptyString => True
     | String c _ => asciiSpace c = false
     end.

(** The formatting method that goes with a call. *)
Definition local_call_format (l : Local.t) (c : call) : string :=
  match c with
  | RunCall cmd args => LocalFormat.FormatRun l cmd args
  | ShellCall cmd => LocalFormat.FormatShell l cmd
  end.

Definition std_call_format (c : call) : string :=
  match c with
  | RunCall cmd args => FormatRun cmd args
  | ShellCall cmd => FormatShell cmd
  end.

Definition remote_call_format (r : Remote.t) (c : call) : string :=
  match c with
  | RunCall cmd args => RemoteFormat.FormatRun r cmd args
  | ShellCall cmd => RemoteFormat.FormatShell r cmd
  end.

(** ** More sample worlds *)

Module Worlds.
Definition with_cmd_Pipe (f : stream -> option error) (os : OS) : OS :=
  mkOS f (spawn os) (user_Current os) (user_Lookup os) (filepath_Join os)
       (Getenv os) (net_Dial os) (agent_Signers os) (ReadFile os) (ParsePrivateKey os)
       (ssh_Dial os) (client_NewSession os) (session_Pipe os) (session_exec os)
       (session_Close os).

Definition with_NewSession (e : option error) (os : OS) : OS :=
  mkOS (cmd_Pipe os) (spawn os) (user_Current os) (user_Lookup os) (filepath_Join os)
       (Getenv os) (net_Dial os) (agent_Signers os) (ReadFile os) (ParsePrivateKey os)
       (ssh_Dial os) e (session_Pipe os) (session_exec os)
       (session_Close os).

Definition with_session_Pipe (f : stream -> option error) (os : OS) : OS :=
  mkOS (cmd_Pipe os) (spawn os) (user_Current os) (user_Lookup os) (filepath_Join os)
       (Getenv os) (net_Dial os) (agent_Signers os) (ReadFile os) (ParsePrivateKey os)
       (ssh_Dial os) (client_NewSession os) f (session_exec os)
       (session_Close os).

(** Every call succeeds; the answers are empty. *)
Definition quiet : OS := Sample.world "" "" 0.

(** The connection is refused. *)
Definition refused : OS :=
  Sample.with_ssh_Dial (fun _ _ _ => Some (OtherError "ssh: handshake failed")) quiet.

(** The connection is made, the session is not. *)
Definition no_session : OS :=
  with_NewSession (Some (OtherError "ssh: rejected")) quiet.

(** No pipe can be made. *)
Definition no_pipes : OS :=
  with_cmd_Pipe (fun _ => Some (OtherError "pipe: too many open files")) quiet.

(** The stdout pipe cannot be read. *)
Definition broken_stdout : OS :=
  Sample.with_spawn
    (fun _ => mkProcess None "" "" (Some (OtherError "read |0: input/output error")) None None)
    quiet.

(** The child is killed by a signal. *)
Definition killed : OS :=
  Sample.with_spawn
    (fun _ => mkProcess None "partial" "" None None (Some (ExecExitError "signal: killed")))
    quiet.

(** The remote command is terminated by a signal. *)
Definition terminated : OS :=
  Sample.with_session_exec
    (fun _ => mkSproc None
                      (Some (SshExitError "Process exited with status 143 from signal TERM"))
                      "partial" "" None None)
    quiet.

(** A configuration that leaves nothing to the defaults. *)
Definition complete : RemoteConfig.t :=
  RemoteConfig.mk "/bin/bash" None None None
                  (Credentials.mk "build.example.org" 2222 "buildman" "secret" "").
End Worlds.

(* ================================================================== *)
(** * Decimal round trip *)
(* ================================================================== *)

Section Decimal.

Lemma N_of_digit_char (d : N) : (d < 10)%N -> N_of_ascii (digit_char d) = (48 + d)%N.
Proof.
  intros Hd. unfold digit_char. apply N_ascii_embedding. lia.
Qed.

Lemma digit_char_is_digit (d : N) : (d < 10)%N -> is_digit (digit_char d) = true.
Proof.
  intros Hd. unfold is_digit. rewrite N_of_digit_char by exact Hd.
  apply andb_true_intro; split; apply N.leb_le; lia.
Qed.

Lemma digit_char_val (d : N) : (d < 10)%N -> digit_val (digit_char d) = Z.of_N d.
Proof.
  intros Hd. unfold digit_val. rewrite N_of_digit_char by exact Hd. lia.
Qed.

Lemma mod10_lt (n : N) : (n mod 10 < 10)%N.
Proof. apply N.mod_lt. discriminate. Qed.

Lemma parse_digits_cons (d : N) (s : string) (a : Z) :
  (d < 10)%N ->
  parse_digits (String (digit_char d) s) a = parse_digits s (a * 10 + Z.of_N d).
Proof.
  intros Hd. simpl. rewrite digit_char_is_digit, digit_char_val by exact Hd. reflexivity.
Qed.

(** Parsing what [utoa_aux] printed: the digits of [n] are read back onto
    the accumulator, then the rest is parsed. *)
Lemma parse_utoa_aux (fuel : nat) :
  forall (n : N) (acc : string) (a : Z),
    (n < 2 ^ N.of_nat fuel)%N ->
    exists k : Z, 0 <= k /\
      parse_digits (utoa_aux fuel n acc) a = parse_digits acc (a * 10 ^ k + Z.of_N n).
Proof.
  induction fuel as [|fuel IH]; intros n acc a Hn.
  - exists 0. split; [lia|]. simpl in *.
    assert (n = 0%N) by lia. subst n. f_equal. lia.
  - cbn [utoa_aux]. destruct (N.eqb_spec (n / 10) 0) as [Hq|Hq].
    + exists 1. split; [lia|]. rewrite parse_digits_cons by apply mod10_lt.
      f_equal. pose proof (N.div_mod n 10 ltac:(discriminate)) as E.
      rewrite Hq in E. lia.
    + destruct (IH (n / 10)%N (String (digit_char (n mod 10)) acc) a) as (k & Hk & E).
      { apply N.Div0.div_lt_upper_bound.
        rewrite Nnat.Nat2N.inj_succ, N.pow_succ_r' in Hn. lia. }
      exists (k + 1). split; [lia|]. rewrite E.
      rewrite parse_digits_cons by apply mod10_lt. f_equal.
      rewrite Z.pow_add_r by lia.
      pose proof (N.div_mod n 10 ltac:(discriminate)) as D.
      rewrite <- (N2Z.id n) in D at 1.
      assert (Z.of_N n = 10 * Z.of_N (n / 10) + Z.of_N (n mod 10)) by lia.
      lia.
Qed.

Lemma utoa_fuel (n : N) : (n < 2 ^ N.of_nat (S (N.to_nat (N.log2 n))))%N.
Proof.
  rewrite Nnat.Nat2N.inj_succ, Nnat.N2Nat.id.
  destruct (N.eq_dec n 0) as [->|Hn]; [reflexivity|].
  apply N.log2_spec. lia.
Qed.

Lemma parse_utoa (n : N) : parse_digits (utoa n) 0 = Some (Z.of_N n).
Proof.
  destruct (parse_utoa_aux _ n "" 0 (utoa_fuel n)) as (k & _ & E).
  unfold utoa. rewrite E. simpl. f_equal.
Qed.

Lemma all_digits_utoa_aux (fuel : nat) :
  forall (n : N) (acc : string),
    all_digits acc = true -> all_digits (utoa_aux fuel n acc) = true.
Proof.
  induction fuel as [|fuel IH]; intros n acc Hacc; [exact Hacc|].
  cbn [utoa_aux].
  assert (H : all_digits (String (digit_char (n mod 10)) acc) = true).
  { simpl. rewrite digit_char_is_digit by apply mod10_lt. exact Hacc. }
  destruct (n / 10 =? 0)%N; [exact H | apply IH, H].
Qed.

Lemma all_digits_utoa (n : N) : all_digits (utoa n) = true.
Proof. apply all_digits_utoa_aux. reflexivity. Qed.

Lemma utoa_aux_nonempty (fuel : nat) :
  forall (n : N) (acc : string), acc <> "" -> utoa_aux fuel n acc <> "".
Proof.
  induction fuel as [|fuel IH]; intros n acc Hacc; [exact Hacc|].
  cbn [utoa_aux]. destruct (n / 10 =? 0)%N; [discriminate|].
  apply IH. discriminate.
Qed.

Lemma utoa_nonempty (n : N) : utoa n <> "".
Proof.
  unfold utoa. cbn [utoa_aux]. destruct (n / 10 =? 0)%N; [discriminate|].
  apply utoa_aux_nonempty. discriminate.
Qed.

(** On a non-empty string of digits [Atoi] has no sign to strip. *)
Lemma Atoi_digits (s : string) (n : Z) :
  s <> "" -> all_digits s = true -> parse_digits s 0 = Some n ->
  0 <= n <= maxInt -> Atoi s = inr n.
Proof.
  intros Hne Hd Hp Hn. destruct s as [|c s]; [congruence|].
  assert (Hc : is_digit c = true) by (simpl in Hd; apply andb_prop in Hd; tauto).
  unfold Atoi.
  assert (E : match String c s with
              | String "-"%char rest => (true, rest)
              | String "+"%char rest => (false, rest)
              | _ => (false, String c s)
              end = (false, String c s)).
  { destruct c as [[] [] [] [] [] [] [] []]; try reflexivity; discriminate Hc. }
  rewrite E. rewrite Hp.
  replace ((minInt <=? n) && (n <=? maxInt)) with true; [reflexivity|].
  symmetry. apply andb_true_intro. unfold minInt, maxInt in *. split; apply Z.leb_le; lia.
Qed.

Lemma Atoi_Itoa (n : Z) : 0 <= n <= maxInt -> Atoi (Itoa n) = inr n.
Proof.
  intros Hn. unfold Itoa. destruct (Z.ltb_spec n 0); [lia|].
  apply Atoi_digits; auto using utoa_nonempty, all_digits_utoa.
  rewrite parse_utoa. f_equal. lia.
Qed.

Lemma strip_prefix_app (p s : string) : strip_prefix p (p ++ s) = Some s.
Proof.
  induction p as [|a p IH]; [reflexivity|]. simpl. rewrite Ascii.eqb_refl. exact IH.
Qed.

(** The expression matches the text the libraries print for a status. *)
Lemma FindStringSubmatch_status (literal : string) (n : Z) :
  0 <= n ->
  FindStringSubmatch literal (literal ++ Itoa n) = Some [literal ++ Itoa n; Itoa n].
Proof.
  intros Hn. unfold FindStringSubmatch. rewrite strip_prefix_app.
  unfold Itoa. destruct (Z.ltb_spec n 0); [lia|].
  rewrite all_digits_utoa.
  destruct (utoa (Z.to_N n)) eqn:E; [exfalso; eapply utoa_nonempty; eauto | reflexivity].
Qed.
End Decimal.

(* ================================================================== *)
(** * Proof tools *)
(* ================================================================== *)

Ltac unfold_go :=
  unfold run, bind, ret, Return, check, emit, modify, get, failed in *.

Ltac unfold_local :=
  unfold local_call, std_call, Run, Shell, LocalExec.Run, LocalExec.Shell,
    LocalExec.exec, LocalExec.exec_body, LocalExec.hook, LocalExec.drain,
    LocalExec.decode, LocalExec.set_Stdout, LocalExec.set_Stderr, exec_Command in *.

Ltac unfold_remote :=
  unfold remote_call, RemoteExec.Run, RemoteExec.Shell, RemoteExec.exec,
    RemoteExec.exec_body, RemoteExec.open, RemoteExec.close, RemoteExec.hook,
    RemoteExec.drain, RemoteExec.decode, RemoteExec.session_Run,
    RemoteExec.set_session, RemoteExec.set_self, RemoteExec.set_conns,
    RemoteExec.set_sessions, RemoteExec.log in *.

(** Case analysis on the innermost scrutinee of the goal. *)
Ltac break_match :=
  match goal with
  | |- context [match ?x with _ => _ end] =>
      lazymatch x with
      | context [match _ with _ => _ end] => fail
      | _ => destruct x eqn:?
      end
  end.

Ltac walk := repeat (break_match; cbn).

(* ================================================================== *)
(** * The local executor *)
(* ================================================================== *)

Lemma local_exec_discipline os l command args :
  code_discipline (fst (LocalExec.exec os l command args)).
Proof.
  unfold code_discipline. unfold_local; unfold_go.
  walk; split; intros; try reflexivity; try congruence.
Qed.

Lemma local_exec_starts os l command args c :
  In c (starts (snd (LocalExec.exec os l command args))) ->
  c = LocalCmd (local_command l command args).
Proof.
  unfold local_command, wire. unfold_local; unfold_go.
  walk; intros H; cbn in H; intuition (try discriminate; auto).
Qed.

Lemma local_decode_exit stdoutBuf stderrBuf n tr :
  0 <= n <= maxInt ->
  LocalExec.decode stdoutBuf stderrBuf 0 (exec_exit n) tr
  = (inl (mkResult stdoutBuf stderrBuf n None), tr).
Proof.
  intros Hn. unfold LocalExec.decode, exec_exit.
  destruct (Z.eqb_spec n 0) as [->|Hz]; [reflexivity|].
  cbn [Error]. rewrite FindStringSubmatch_status by lia. cbn [nth].
  rewrite Atoi_Itoa by lia. reflexivity.
Qed.

Lemma local_exec_completes os l command args n :
  0 <= n <= maxInt ->
  (forall s, cmd_Pipe os s = None) ->
  runs_to_completion (spawn os (local_command l command args)) n ->
  fst (LocalExec.exec os l command args)
  = mkResult (captured (Local.Stdout l) (p_stdout (spawn os (local_command l command args))))
             (captured (Local.Stderr l) (p_stderr (spawn os (local_command l command args))))
             n None.
Proof.
  intros Hn Hpipe (Hs & Ho & He & Hw).
  unfold local_command, wire, captured in *.
  unfold LocalExec.exec, LocalExec.exec_body, LocalExec.hook, LocalExec.drain,
    LocalExec.set_Stdout, LocalExec.set_Stderr, exec_Command.
  unfold_go. rewrite !Hpipe.
  destruct (Local.Stdout l), (Local.Stderr l); cbn -[LocalExec.decode] in *;
    repeat (first [rewrite Hs | rewrite Ho | rewrite He | rewrite Hw];
            cbn -[LocalExec.decode]);
    rewrite local_decode_exit by exact Hn; reflexivity.
Qed.

Lemma local_exec_cannot_start os l command args e :
  p_start (spawn os (local_command l command args)) = Some e ->
  exists e', fst (LocalExec.exec os l command args) = failed e'.
Proof.
  intros Hs. unfold local_command, wire in *. unfold_local; unfold_go.
  destruct (Local.Stdout l), (Local.Stderr l); cbn in *;
    repeat (break_match; cbn); try rewrite Hs; cbn; eauto; try congruence.
Qed.

Lemma local_exec_streams os l command args :
  let p := spawn os (local_command l command args) in
  let res := fst (LocalExec.exec os l command args) in
  let tr := snd (LocalExec.exec os l command args) in
  stream_contract (Local.Stdout l) (r_stdout res) (r_err res) (p_stdout p) (copies StdoutS tr)
  /\ stream_contract (Local.Stderr l) (r_stderr res) (r_err res) (p_stderr p) (copies StderrS tr).
Proof.
  unfold local_command, wire, stream_contract. unfold_local; unfold_go.
  destruct (Local.Stdout l), (Local.Stderr l); cbn;
    walk; repeat split; intros; try reflexivity; try congruence.
Qed.

Lemma local_exec_order os l command args :
  Local.Stdout l = None -> Local.Stderr l = None ->
  r_err (fst (LocalExec.exec os l command args)) = None ->
  sequential_capture_order (snd (LocalExec.exec os l command args)) = true.
Proof.
  intros Ho He. unfold_local; unfold_go. rewrite Ho, He.
  walk; intros; try reflexivity; try congruence.
Qed.

(* ================================================================== *)
(** * The remote executor *)
(* ================================================================== *)

Lemma remote_exec_discipline os args st :
  outcome_discipline (fst (RemoteExec.exec os args st)).
Proof.
  unfold outcome_discipline, code_discipline. unfold_remote; unfold_go.
  walk; try split; intros; try reflexivity; try congruence.
Qed.

Lemma remote_exec_session_released os args st :
  Remote.sshSession (self st) = None ->
  Remote.sshSession (self (snd (RemoteExec.exec os args st))) = None
  /\ open_sessions (snd (RemoteExec.exec os args st)) = open_sessions st.
Proof.
  intros Hs. unfold_remote; unfold_go.
  walk; split; try reflexivity; try assumption; try congruence.
Qed.

Lemma remote_exec_connection_left_open os args st :
  (exists auths, RemoteExec.getSSHAuths os (self st) = inr auths) ->
  (forall addr config, ssh_Dial os "tcp" addr config = None) ->
  open_conns (snd (RemoteExec.exec os args st)) = S (open_conns st).
Proof.
  intros [auths Ha] Hd. unfold_remote; unfold_go. rewrite Ha. cbn. rewrite Hd. cbn.
  walk; reflexivity.
Qed.

Lemma remote_exec_starts os args r c :
  In c (starts (trace (snd (RemoteExec.exec os args (RemoteExec.idle r))))) ->
  c = SessionCmd (Join args " ").
Proof.
  unfold RemoteExec.idle. unfold_remote; unfold_go.
  walk; intros H; cbn in H; intuition (try discriminate; auto).
Qed.

Lemma remote_decode_exit n st :
  0 <= n <= maxInt ->
  RemoteExec.decode 0 (ssh_exit n) st = (inl (n, None), st).
Proof.
  intros Hn. unfold RemoteExec.decode, ssh_exit.
  destruct (Z.eqb_spec n 0) as [->|Hz]; [reflexivity|].
  cbn [Error]. rewrite FindStringSubmatch_status by lia. cbn [nth].
  rewrite Atoi_Itoa by lia. reflexivity.
Qed.

Lemma remote_exec_completes os r args n :
  0 <= n <= maxInt ->
  session_set_up os r ->
  session_runs_to_completion (session_exec os (Join args " ")) n ->
  fst (RemoteExec.exec os args (RemoteExec.idle r))
  = Ret (mkResult (captured (Remote.Stdout r) (sp_stdout (session_exec os (Join args " "))))
                  (captured (Remote.Stderr r) (sp_stderr (session_exec os (Join args " "))))
                  n None).
Proof.
  intros Hn ([auths Ha] & Hd & Hn' & Hp) (Hs & Ho & He & Hw).
  unfold RemoteExec.idle, captured.
  unfold RemoteExec.exec, RemoteExec.exec_body, RemoteExec.open, RemoteExec.close,
    RemoteExec.hook, RemoteExec.drain, RemoteExec.session_Run, RemoteExec.set_session,
    RemoteExec.set_self, RemoteExec.set_conns, RemoteExec.set_sessions, RemoteExec.log.
  unfold_go. cbn -[RemoteExec.decode Join]. rewrite Ha. cbn -[RemoteExec.decode Join].
  rewrite Hd. cbn -[RemoteExec.decode Join]. rewrite Hn'. cbn -[RemoteExec.decode Join].
  rewrite !Hp.
  destruct (Remote.Stdout r), (Remote.Stderr r); cbn -[RemoteExec.decode Join];
    repeat (first [rewrite Hs | rewrite Ho | rewrite He | rewrite Hw
                  | rewrite remote_decode_exit by exact Hn];
            cbn -[RemoteExec.decode Join]);
    reflexivity.
Qed.

Lemma remote_exec_cannot_execute os r args :
  session_set_up os r ->
  (exists msg, sp_start (session_exec os (Join args " ")) = Some msg)
  \/ (sp_start (session_exec os (Join args " ")) = None
      /\ exists e, sp_wait (session_exec os (Join args " ")) = Some e
                   /\ forall msg, e <> SshExitError msg) ->
  exists e', fst (RemoteExec.exec os args (RemoteExec.idle r)) = Ret (failed e').
Proof.
  intros ([auths Ha] & Hd & Hn' & Hp) H.
  unfold RemoteExec.idle. unfold_remote; unfold_go.
  cbn -[Join]. rewrite Ha. cbn -[Join]. rewrite Hd. cbn -[Join]. rewrite Hn'. cbn -[Join].
  rewrite !Hp.
  destruct H as [[msg Hs] | (Hs & e & Hw & He)].
  - destruct (Remote.Stdout r), (Remote.Stderr r); cbn -[Join]; rewrite Hs; cbn -[Join]; eauto.
  - destruct (Remote.Stdout r), (Remote.Stderr r); cbn -[Join]; rewrite Hs; cbn -[Join];
      rewrite Hw; destruct e; cbn -[Join]; eauto; exfalso; eapply He; reflexivity.
Qed.

Lemma remote_exec_streams os r args res st' :
  RemoteExec.exec os args (RemoteExec.idle r) = (Ret res, st') ->
  let p := session_exec os (Join args " ") in
  stream_contract (Remote.Stdout r) (r_stdout res) (r_err res) (sp_stdout p)
                  (copies StdoutS (trace st'))
  /\ stream_contract (Remote.Stderr r) (r_stderr res) (r_err res) (sp_stderr p)
                     (copies StderrS (trace st')).
Proof.
  destruct r as [shell sin [w1|] [w2|] creds sess];
    unfold RemoteExec.idle, stream_contract; unfold_remote; unfold_go; cbn -[Join];
    walk; intros H; inversion H; subst; clear H; cbn;
    repeat split; intros; try reflexivity; try congruence.
Qed.

Lemma remote_exec_order os r args res st' :
  Remote.Stdout r = None -> Remote.Stderr r = None ->
  RemoteExec.exec os args (RemoteExec.idle r) = (Ret res, st') ->
  r_err res = None ->
  sequential_drains (trace st') = true.
Proof.
  destruct r as [shell sin sout serr creds sess]. cbn. intros -> ->.
  unfold RemoteExec.idle. unfold_remote; unfold_go. cbn -[Join].
  walk; intros H; inversion H; subst; clear H; cbn; intros; try reflexivity; try congruence.
Qed.

Lemma remote_exec_auth_failure os r args err :
  RemoteExec.getSSHAuths os r = inl err ->
  RemoteExec.exec os args (RemoteExec.idle r) = (Ret (failed err), RemoteExec.idle r).
Proof.
  intros Ha. unfold RemoteExec.idle. unfold_remote; unfold_go. cbn. rewrite Ha. reflexivity.
Qed.

(* ================================================================== *)
(** * Calls are [exec] *)
(* ================================================================== *)

Lemma local_call_exec os l c :
  local_call os l c
  = LocalExec.exec os l (Path (local_call_command l c)) (tl (Args (local_call_command l c))).
Proof. destruct c; reflexivity. Qed.

Lemma local_call_command_eq l c :
  local_command l (Path (local_call_command l c)) (tl (Args (local_call_command l c)))
  = local_call_command l c.
Proof. destruct c; reflexivity. Qed.

Lemma remote_call_exec os r c :
  remote_call os c (RemoteExec.idle r)
  = RemoteExec.exec os [remote_call_line r c] (RemoteExec.idle r).
Proof. destruct c; reflexivity. Qed.

Lemma Join_single (s : string) : Join [s] " " = s.
Proof. reflexivity. Qed.

Lemma local_exec_started os l command args :
  (forall s, cmd_Pipe os s = None) ->
  starts (snd (LocalExec.exec os l command args)) = [LocalCmd (local_command l command args)].
Proof.
  intros Hp. unfold local_command, wire. unfold_local; unfold_go. rewrite !Hp.
  destruct (Local.Stdout l), (Local.Stderr l); cbn; walk; reflexivity.
Qed.

(* ================================================================== *)
(** * NewLocal, NewRemote, getSSHAuths *)
(* ================================================================== *)

Lemma NewLocal_fields config :
  Local.Env (NewLocal config) = LocalConfig.Env config
  /\ Local.Dir (NewLocal config) = LocalConfig.Dir config
  /\ Local.Stdin (NewLocal config) = LocalConfig.Stdin config
  /\ Local.Stdout (NewLocal config) = LocalConfig.Stdout config
  /\ Local.Stderr (NewLocal config) = LocalConfig.Stderr config.
Proof. unfold NewLocal. destruct (String.length _ =? 0)%nat; cbn; auto. Qed.

Lemma NewLocal_shell_default config :
  LocalConfig.ShellExecutable config = "" ->
  Local.ShellExecutable (NewLocal config) = "/bin/sh".
Proof. intros H. unfold NewLocal. rewrite H. reflexivity. Qed.

Lemma NewLocal_shell_configured config :
  LocalConfig.ShellExecutable config <> "" ->
  Local.ShellExecutable (NewLocal config) = "".
Proof.
  intros H. unfold NewLocal.
  destruct (LocalConfig.ShellExecutable config); [congruence | reflexivity].
Qed.

Lemma length_zero_eqb (s : string) : (String.length s =? 0)%nat = String.eqb s "".
Proof. destruct s; reflexivity. Qed.

(* ================================================================== *)
(** * The claims *)
(* ================================================================== *)

(** C10. For every [Run] and [Shell] on a [Local], on the standard runner
    and on a [Remote]: a result with an error has exit code 0, and a result
    with an exit code other than 0 has no error (and no call panics). *)
Theorem error_comes_with_code_zero (os : OS) (c : call) :
  (forall l, code_discipline (fst (local_call os l c)))
  /\ code_discipline (fst (std_call os c))
  /\ (forall st, outcome_discipline (fst (remote_call os c st))).
Proof.
  split; [|split]; intros; destruct c;
    first [apply local_exec_discipline | apply remote_exec_discipline].
Qed.

(** C6. [Local.Shell(s)] is [Local.Run(shell, "-c", s)] with [shell] the
    shell path of the executor: the same four results and the same trace;
    the command started has the argument vector [shell; "-c"; s], the
    command line being one argument. *)
Theorem Local_Shell_is_Run_of_shell (os : OS) (l : Local.t) (s : string) :
  LocalExec.Shell os l s = LocalExec.Run os l (Local.ShellExecutable l) ["-c"; s]
  /\ (forall c, In c (starts (snd (LocalExec.Shell os l s))) ->
      exists k, c = LocalCmd k /\ Path k = Local.ShellExecutable l
                /\ Args k = [Local.ShellExecutable l; "-c"; s])
  /\ ((forall st, cmd_Pipe os st = None) ->
      exists k, starts (snd (LocalExec.Shell os l s)) = [LocalCmd k]
                /\ Args k = [Local.ShellExecutable l; "-c"; s]).
Proof.
  split; [reflexivity|]. split.
  - intros c Hc. apply local_exec_starts in Hc. subst c. eexists. repeat split.
  - intros Hp. eexists. split; [apply local_exec_started, Hp | reflexivity].
Qed.

Lemma Local_Shell_is_Run_of_shell_witness :
  exists k,
    starts (snd (LocalExec.Shell (Sample.world "" "" 0) Sample.local "ls | wc -l")) = [LocalCmd k]
    /\ Args k = ["/bin/sh"; "-c"; "ls | wc -l"].
Proof.
  apply (Local_Shell_is_Run_of_shell (Sample.world "" "" 0) Sample.local "ls | wc -l").
  intros st. reflexivity.
Defined.

(** C2. For every [Run] or [Shell] on either executor.  When the child (the
    remote command) runs to completion and terminates normally with status
    [n] - the pipes of the captured streams could be made, the command
    could be started, its captured output could be read to the end and the
    wait reports status [n]; for a remote command the connection and the
    session could be set up first - the call returns exit code [n] and a
    nil error.  When the process cannot be started (the execution on the
    session fails with an error that is not an exit error) the call returns
    ["", "", 0, err] with [err] not nil: no exit code is decoded. *)
Theorem exit_status_or_failure (os : OS) (c : call) :
  (forall l n,
      0 <= n <= maxInt ->
      (forall s, cmd_Pipe os s = None) ->
      runs_to_completion (spawn os (local_call_command l c)) n ->
      fst (local_call os l c)
      = mkResult (captured (Local.Stdout l) (p_stdout (spawn os (local_call_command l c))))
                 (captured (Local.Stderr l) (p_stderr (spawn os (local_call_command l c))))
                 n None)
  /\ (forall l e,
      p_start (spawn os (local_call_command l c)) = Some e ->
      exists e', fst (local_call os l c) = failed e')
  /\ (forall r n,
      0 <= n <= maxInt ->
      session_set_up os r ->
      session_runs_to_completion (session_exec os (remote_call_line r c)) n ->
      fst (remote_call os c (RemoteExec.idle r))
      = Ret (mkResult
               (captured (Remote.Stdout r) (sp_stdout (session_exec os (remote_call_line r c))))
               (captured (Remote.Stderr r) (sp_stderr (session_exec os (remote_call_line r c))))
               n None))
  /\ (forall r,
      session_set_up os r ->
      (exists msg, sp_start (session_exec os (remote_call_line r c)) = Some msg)
      \/ (sp_start (session_exec os (remote_call_line r c)) = None
          /\ exists e, sp_wait (session_exec os (remote_call_line r c)) = Some e
                       /\ forall msg, e <> SshExitError msg) ->
      exists e', fst (remote_call os c (RemoteExec.idle r)) = Ret (failed e')).
Proof.
  repeat apply conj.
  - intros l n Hn Hp Hc. destruct c; exact (local_exec_completes _ _ _ _ n Hn Hp Hc).
  - intros l e He. destruct c; exact (local_exec_cannot_start _ _ _ _ e He).
  - intros r n Hn Hs Hc.
    destruct c; exact (remote_exec_completes os r [_] n Hn Hs Hc).
  - intros r Hs H.
    destruct c; exact (remote_exec_cannot_execute os r [_] Hs H).
Qed.

Lemma exit_status_or_failure_witness :
  fst (local_call (Sample.world "" "" 6) Sample.local (ShellCall "exit 6"))
  = mkResult "" "" 6 None.
Proof.
  refine (proj1 (exit_status_or_failure (Sample.world "" "" 6) (ShellCall "exit 6"))
                Sample.local 6 _ _ _).
  - unfold maxInt. lia.
  - intros s. reflexivity.
  - repeat split.
Defined.

(** C7. For every call on either executor and for each of the two streams
    on its own: with a caller's sink the returned string is empty and, when
    the call returns no error, the library delivered all the bytes of the
    stream to that sink; with the sink unset nothing of the stream goes to
    a sink and, when the call returns no error, the bytes are what is
    returned. *)
Theorem capture_or_redirect (os : OS) (c : call) :
  (forall l,
      let p := spawn os (local_call_command l c) in
      let res := fst (local_call os l c) in
      let tr := snd (local_call os l c) in
      stream_contract (Local.Stdout l) (r_stdout res) (r_err res) (p_stdout p)
                      (copies StdoutS tr)
      /\ stream_contract (Local.Stderr l) (r_stderr res) (r_err res) (p_stderr p)
                         (copies StderrS tr))
  /\ (forall r res st',
      remote_call os c (RemoteExec.idle r) = (Ret res, st') ->
      let p := session_exec os (remote_call_line r c) in
      stream_contract (Remote.Stdout r) (r_stdout res) (r_err res) (sp_stdout p)
                      (copies StdoutS (trace st'))
      /\ stream_contract (Remote.Stderr r) (r_stderr res) (r_err res) (sp_stderr p)
                         (copies StderrS (trace st'))).
Proof.
  split.
  - intros l. destruct c; apply local_exec_streams.
  - intros r res st' H.
    destruct c; exact (remote_exec_streams os r [_] res st' H).
Qed.

Lemma capture_or_redirect_witness :
  stream_contract (Some 7%nat) "" None "out" [(7%nat, "out")]
  /\ stream_contract None "err" None "err" [].
Proof.
  refine (proj2 (capture_or_redirect (Sample.world "out" "err" 0) (RunCall "/bin/ls" ["-1"]))
               (Remote.mk "/bin/sh" None (Some 7%nat) None
                          (Credentials.mk "localhost" 22 "alice" "" "/home/alice/.ssh/id_rsa")
                          None)
               (mkResult "" "err" 0 None)
               (snd (remote_call (Sample.world "out" "err" 0) (RunCall "/bin/ls" ["-1"])
                       (RemoteExec.idle
                          (Remote.mk "/bin/sh" None (Some 7%nat) None
                             (Credentials.mk "localhost" 22 "alice" ""
                                             "/home/alice/.ssh/id_rsa") None)))) _).
  vm_compute. reflexivity.
Defined.

(** C1, as the code has it.  [Local.Run] and the package-level [Run] start
    nothing but the named program, with the argument vector [cmd :: args]
    as it was given.  [Remote.Run] starts nothing but one command line, the
    command and the arguments joined with single spaces, nothing quoted and
    nothing changed. *)
Theorem direct_execution_argv (os : OS) (cmd : string) (args : list string) :
  (forall l c,
      In c (starts (snd (LocalExec.Run os l cmd args))) ->
      exists k, c = LocalCmd k /\ Path k = cmd /\ Args k = cmd :: args)
  /\ (forall c,
      In c (starts (snd (Run os cmd args))) ->
      exists k, c = LocalCmd k /\ Path k = cmd /\ Args k = cmd :: args)
  /\ (forall r c,
      In c (starts (trace (snd (RemoteExec.Run os cmd args (RemoteExec.idle r))))) ->
      c = SessionCmd (cmd ++ " " ++ Join args " ")).
Proof.
  repeat apply conj.
  - intros l c Hc. apply local_exec_starts in Hc. subst c. eexists. repeat split.
  - intros c Hc. apply local_exec_starts in Hc. subst c. eexists. repeat split.
  - intros r c Hc. exact (remote_exec_starts os [_] r c Hc).
Qed.

Lemma direct_execution_argv_witness :
  exists k, LocalCmd (local_command Sample.local "/bin/echo" ["a;id"; "$(id)"]) = LocalCmd k
            /\ Path k = "/bin/echo" /\ Args k = ["/bin/echo"; "a;id"; "$(id)"].
Proof.
  refine (proj1 (direct_execution_argv (Sample.world "" "" 0) "/bin/echo" ["a;id"; "$(id)"])
                Sample.local _ _).
  vm_compute. left. reflexivity.
Defined.

(** C1, as stated, fails on [Remote.Run]: no reading of the submitted line
    by the remote side gives every argument vector back, because
    [Run("echo", "a b")] and [Run("echo", "a", "b")] submit the same line. *)
Lemma remote_run_not_literal : ~ remote_run_literal (Sample.world "" "" 0) Sample.remote.
Proof.
  intros [remote_side H].
  pose proof (H "echo" ["a b"] (SessionCmd "echo a b")) as H1.
  pose proof (H "echo" ["a"; "b"] (SessionCmd "echo a b")) as H2.
  cbn [program_view] in H1, H2.
  assert (E1 : remote_side "echo a b" = ["echo"; "a b"]).
  { apply H1. vm_compute. left. reflexivity. }
  assert (E2 : remote_side "echo a b" = ["echo"; "a"; "b"]).
  { apply H2. vm_compute. left. reflexivity. }
  rewrite E1 in E2. discriminate E2.
Qed.

(** C3.  [NewLocal] with a shell configured: the shell of the executor is
    empty, not the configured path. *)
Theorem NewLocal_loses_configured_shell :
  Local.ShellExecutable (NewLocal (LocalConfig.mk "/bin/bash" [] "" None None None)) = "".
Proof. reflexivity. Qed.

(** C4.  After a [Remote.Run] that succeeded the session is closed and the
    session field is nil, but the connection that [ssh.Dial] opened is
    still open. *)
Theorem Remote_Run_leaves_connection_open :
  let call := RemoteExec.Run (Sample.world "out" "" 0) "/bin/true" []
                             (RemoteExec.idle Sample.remote) in
  fst call = Ret (mkResult "out" "" 0 None)
  /\ Remote.sshSession (self (snd call)) = None
  /\ open_sessions (snd call) = 0%nat
  /\ open_conns (snd call) = 1%nat.
Proof. vm_compute. repeat split. Qed.

(** C5, as the code has it.  With both streams captured and a call that
    returns no error: a [Local] starts the process, reads stdout to its
    end, then reads stderr to its end, then waits; a [Remote] too reads
    stdout to its end before it begins to read stderr. *)
Theorem capture_is_sequential (os : OS) (c : call) :
  (forall l,
      Local.Stdout l = None -> Local.Stderr l = None ->
      r_err (fst (local_call os l c)) = None ->
      sequential_capture_order (snd (local_call os l c)) = true)
  /\ (forall r res st',
      Remote.Stdout r = None -> Remote.Stderr r = None ->
      remote_call os c (RemoteExec.idle r) = (Ret res, st') ->
      r_err res = None ->
      sequential_drains (trace st') = true).
Proof.
  split.
  - intros l Ho He Hr. destruct c; apply local_exec_order; assumption.
  - intros r res st' Ho He H Hr.
    destruct c; exact (remote_exec_order os r [_] res st' Ho He H Hr).
Qed.

Lemma capture_is_sequential_witness :
  sequential_capture_order
    (snd (local_call (Sample.world "out" "err" 0) Sample.local (RunCall "/bin/ls" ["-1"])))
  = true.
Proof.
  refine (proj1 (capture_is_sequential (Sample.world "out" "err" 0) (RunCall "/bin/ls" ["-1"]))
                Sample.local _ _ _); reflexivity.
Defined.

(** C5, as stated, fails: a call with both streams captured that returns no
    error does not have the order the specification asks for, on a [Local]
    (the drains are one after the other) and on a [Remote]. *)
Lemma capture_not_concurrent :
  let lcall := local_call (Sample.world "out" "err" 0) Sample.local (RunCall "/bin/ls" ["-1"]) in
  let rcall := remote_call (Sample.world "out" "err" 0) (RunCall "/bin/ls" ["-1"])
                           (RemoteExec.idle Sample.remote) in
  Local.Stdout Sample.local = None /\ Local.Stderr Sample.local = None
  /\ r_err (fst lcall) = None
  /\ spec_capture_order (snd lcall) = false
  /\ Remote.Stdout Sample.remote = None /\ Remote.Stderr Sample.remote = None
  /\ fst rcall = Ret (mkResult "out" "err" 0 None)
  /\ spec_capture_order (trace (snd rcall)) = false.
Proof. vm_compute. repeat split. Qed.

(** C8.  [NewRemote] returns an instance or an error.  In the instance the
    shell is the configured one or "/bin/sh", the streams and the password
    are the configured ones, the host name is the configured one or
    "localhost", the port the configured one or 22, the user name the
    configured one or the name of the current user, and the key file the
    configured one unless password and key file are both empty: then it is
    [home/.ssh/id_rsa] joined from the home directory of that user.  The
    error is the one of the lookup of the current user or of the lookup of
    the home directory, and either failure gives an error and no instance. *)
Theorem NewRemote_defaults (os : OS) (config : RemoteConfig.t) :
  let c := RemoteConfig.Credentials config in
  (forall r, NewRemote os config = inr r ->
     Remote.ShellExecutable r
       = (if String.eqb (RemoteConfig.ShellExecutable config) "" then "/bin/sh"
          else RemoteConfig.ShellExecutable config)
     /\ Remote.Stdin r = RemoteConfig.Stdin config
     /\ Remote.Stdout r = RemoteConfig.Stdout config
     /\ Remote.Stderr r = RemoteConfig.Stderr config
     /\ Remote.sshSession r = None
     /\ Credentials.Hostname (Remote.Credentials r)
          = (if String.eqb (Credentials.Hostname c) "" then "localhost"
             else Credentials.Hostname c)
     /\ Credentials.Port (Remote.Credentials r)
          = (if Credentials.Port c =? 0 then 22 else Credentials.Port c)
     /\ Credentials.Password (Remote.Credentials r) = Credentials.Password c
     /\ (if String.eqb (Credentials.Username c) ""
         then exists u, user_Current os = inr u
                        /\ Credentials.Username (Remote.Credentials r) = Username u
         else Credentials.Username (Remote.Credentials r) = Credentials.Username c)
     /\ (if String.eqb (Credentials.Password c) ""
            && String.eqb (Credentials.PrivateKeyFilename c) ""
         then exists u, user_Lookup os (Credentials.Username (Remote.Credentials r)) = inr u
                        /\ Credentials.PrivateKeyFilename (Remote.Credentials r)
                           = filepath_Join os [HomeDir u; ".ssh"; "id_rsa"]
         else Credentials.PrivateKeyFilename (Remote.Credentials r)
              = Credentials.PrivateKeyFilename c))
  /\ (forall err, Credentials.Username c = "" -> user_Current os = inl err ->
        NewRemote os config = inl err)
  /\ (forall name err,
        (if String.eqb (Credentials.Username c) ""
         then exists u, user_Current os = inr u /\ name = Username u
         else name = Credentials.Username c) ->
        Credentials.Password c = "" -> Credentials.PrivateKeyFilename c = "" ->
        user_Lookup os name = inl err ->
        NewRemote os config = inl err)
  /\ (forall err, NewRemote os config = inl err ->
        (Credentials.Username c = "" /\ user_Current os = inl err)
        \/ (Credentials.Password c = "" /\ Credentials.PrivateKeyFilename c = ""
            /\ exists name, user_Lookup os name = inl err)).
Proof.
  destruct config as [shell sin sout serr [host port user pw key]].
  unfold NewRemote, defaultPrivateKeyFilename. cbv zeta.
  repeat apply conj.
  - intros r.
    destruct (Z.eqb_spec port 0) as [->|Hport];
      [|apply Z.eqb_neq in Hport];
      destruct shell as [|? ?], host as [|? ?], user as [|? ?], pw as [|? ?], key as [|? ?];
      cbn; rewrite ?Hport; cbn;
      try (destruct (user_Current os) as [e|u]; cbn; [discriminate|]);
      try (match goal with
           | |- context [match user_Lookup os ?n with _ => _ end] =>
               destruct (user_Lookup os n) as [e'|u'] eqn:El; cbn; [discriminate|]
           end);
      intros H; inversion H; subst; clear H; cbn; rewrite ?Hport;
      repeat split; eauto.
  - cbn. intros err -> Hc.
    destruct (Z.eqb_spec port 0) as [->|Hport];
      [|apply Z.eqb_neq in Hport];
      destruct shell as [|? ?], host as [|? ?]; cbn; rewrite ?Hport; cbn;
      rewrite Hc; reflexivity.
  - cbn. intros name err Hn -> -> Hl.
    destruct (Z.eqb_spec port 0) as [->|Hport];
      [|apply Z.eqb_neq in Hport];
      destruct shell as [|? ?], host as [|? ?], user as [|? ?];
      cbn in *; rewrite ?Hport; cbn;
      try (destruct Hn as (u & Hc & ->); rewrite Hc; cbn);
      try subst name; rewrite Hl; reflexivity.
  - intros err.
    destruct (Z.eqb_spec port 0) as [->|Hport];
      [|apply Z.eqb_neq in Hport];
      destruct shell as [|? ?], host as [|? ?], user as [|? ?],
        pw as [|? ?], key as [|? ?];
      cbn; rewrite ?Hport; cbn;
      try (destruct (user_Current os) as [e|u]; cbn);
      try (match goal with
           | |- context [match user_Lookup os ?n with _ => _ end] =>
               destruct (user_Lookup os n) as [e'|u'] eqn:El; cbn
           end);
      intros H; inversion H; subst; clear H; eauto 6.
Qed.

Lemma NewRemote_defaults_witness :
  NewRemote (Sample.with_users (inr Sample.alice) (fun _ => inl (OtherError "user: unknown user"))
                               (Sample.world "" "" 0))
            RemoteConfig.zero
  = inl (OtherError "user: unknown user").
Proof.
  refine (proj1 (proj2 (proj2 (NewRemote_defaults _ RemoteConfig.zero)))
                "alice" (OtherError "user: unknown user") _ _ _ _).
  - cbn. exists Sample.alice. split; reflexivity.
  - reflexivity.
  - reflexivity.
  - reflexivity.
Defined.

(** C9.  [getSSHAuths] gives one authentication method, chosen in this
    order: the password when one is configured; else, when SSH_AUTH_SOCK is
    set, all the signers of the agent, and a failure to reach the agent or
    to list its signers is the error (the key file is not tried); else the
    key of the private-key file, and a failure to read or to parse the file
    is an error whose text names the file.  A call whose authentication
    material fails returns that error and has dialled nothing. *)
Theorem getSSHAuths_priority (os : OS) (r : Remote.t) :
  let c := Remote.Credentials r in
  let file := Credentials.PrivateKeyFilename c in
  (Credentials.Password c <> "" ->
     RemoteExec.getSSHAuths os r = inr [ssh_Password (Credentials.Password c)])
  /\ (Credentials.Password c = "" -> Getenv os "SSH_AUTH_SOCK" <> "" ->
      RemoteExec.getSSHAuths os r
      = match net_Dial os "unix" (Getenv os "SSH_AUTH_SOCK") with
        | inl err => inl err
        | inr sock =>
            match agent_Signers os sock with
            | inl err => inl err
            | inr signers => inr [ssh_PublicKeys signers]
            end
        end)
  /\ (Credentials.Password c = "" -> Getenv os "SSH_AUTH_SOCK" = "" ->
      RemoteExec.getSSHAuths os r
      = match ReadFile os file with
        | inl err =>
            inl (OtherError ("run: could not read private key file '" ++ file
                             ++ "': " ++ Error err))
        | inr keyBuf =>
            match ParsePrivateKey os keyBuf with
            | inl err =>
                inl (OtherError ("run: could not use private key file '" ++ file
                                 ++ "': " ++ Error err))
            | inr key => inr [ssh_PublicKeys [key]]
            end
        end)
  /\ (forall auths, RemoteExec.getSSHAuths os r = inr auths -> length auths = 1%nat)
  /\ (forall call err,
      RemoteExec.getSSHAuths os r = inl err ->
      remote_call os call (RemoteExec.idle r) = (Ret (failed err), RemoteExec.idle r)).
Proof.
  cbv zeta. unfold RemoteExec.getSSHAuths. repeat apply conj.
  - intros Hp. destruct (String.eqb_spec (Credentials.Password (Remote.Credentials r)) "");
      [contradiction | reflexivity].
  - intros -> He. destruct (String.eqb_spec (Getenv os "SSH_AUTH_SOCK") "");
      [contradiction | reflexivity].
  - intros -> ->. reflexivity.
  - intros auths. repeat (break_match; cbn); intros H; inversion H; reflexivity.
  - intros call err H. destruct call; apply remote_exec_auth_failure; exact H.
Qed.

Lemma getSSHAuths_priority_witness :
  RemoteExec.getSSHAuths
    (Sample.with_ReadFile (fun _ => inl (OtherError "no such file")) (Sample.world "" "" 0))
    Sample.remote
  = inl (OtherError
           "run: could not read private key file '/home/alice/.ssh/id_rsa': no such file").
Proof.
  refine (proj1 (proj2 (proj2 (getSSHAuths_priority _ Sample.remote))) _ _); reflexivity.
Defined.

(* ================================================================== *)
(** * Further properties of the executors *)
(* ================================================================== *)

Lemma append_assoc (a b c : string) : (a ++ b) ++ c = a ++ b ++ c.
Proof. induction a as [|x a IH]; [reflexivity|]. cbn. rewrite IH. reflexivity. Qed.

Lemma append_nil_r (a : string) : a ++ "" = a.
Proof. induction a as [|x a IH]; [reflexivity|]. cbn. rewrite IH. reflexivity. Qed.

Lemma strip_prefix_sound (p s d : string) : strip_prefix p s = Some d -> s = p ++ d.
Proof.
  revert s. induction p as [|a p IH]; intros s H.
  - cbn in H. inversion H. reflexivity.
  - destruct s as [|b s]; [discriminate|]. cbn in H.
    destruct (Ascii.eqb_spec a b) as [->|]; [|discriminate].
    cbn. f_equal. apply IH, H.
Qed.

Lemma FindStringSubmatch_sound (literal s : string) (m : list string) :
  FindStringSubmatch literal s = Some m ->
  exists digits, s = literal ++ digits /\ m = [s; digits]
                 /\ digits <> "" /\ all_digits digits = true.
Proof.
  unfold FindStringSubmatch. destruct (strip_prefix literal s) as [d|] eqn:E; [|discriminate].
  apply strip_prefix_sound in E. destruct d as [|c d]; [discriminate|].
  destruct (all_digits (String c d)) eqn:Ed; [|discriminate].
  intros H. inversion H. exists (String c d). repeat split; congruence.
Qed.

(** X1. A [Run] or [Shell] on a [Remote] whose session field is nil leaves,
    on every way out, the session field nil and as many sessions open as
    there were before the call. *)
Theorem remote_call_releases_session (os : OS) (c : call) (st : RState) :
  Remote.sshSession (self st) = None ->
  Remote.sshSession (self (snd (remote_call os c st))) = None
  /\ open_sessions (snd (remote_call os c st)) = open_sessions st.
Proof.
  intros H. destruct c; apply remote_exec_session_released; exact H.
Qed.

Lemma remote_call_releases_session_witness :
  Remote.sshSession
    (self (snd (remote_call (Sample.world "out" "err" 3) (ShellCall "exit 3")
                            (RemoteExec.idle Sample.remote)))) = None
  /\ open_sessions (snd (remote_call (Sample.world "out" "err" 3) (ShellCall "exit 3")
                                     (RemoteExec.idle Sample.remote))) = 0%nat.
Proof.
  refine (remote_call_releases_session (Sample.world "out" "err" 3) (ShellCall "exit 3")
                                       (RemoteExec.idle Sample.remote) _).
  reflexivity.
Defined.

(** X2. When the authentication material is there and [ssh.Dial] fails,
    the call returns ["", "", 0] and the error
    "run: connection to USER@HOST failed: " followed by the text of the
    dial error; the receiver is unchanged, nothing is open, and the dial of
    HOST:PORT is the only thing that happened. *)
Theorem remote_call_dial_failure (os : OS) (c : call) (r : Remote.t)
    (auths : list AuthMethod) (err : error) :
  let creds := Remote.Credentials r in
  let addr := Credentials.Hostname creds ++ ":" ++ Itoa (Credentials.Port creds) in
  RemoteExec.getSSHAuths os r = inr auths ->
  ssh_Dial os "tcp" addr
           (mkClientConfig (Credentials.Username creds) auths InsecureIgnoreHostKey)
  = Some err ->
  remote_call os c (RemoteExec.idle r)
  = (Ret (failed (OtherError ("run: connection to " ++ Credentials.Username creds ++ "@"
                              ++ Credentials.Hostname creds ++ " failed: " ++ Error err))),
     mkRState r 0 0 [EvDial addr]).
Proof.
  cbv zeta. intros Ha Hd.
  destruct c; unfold RemoteExec.idle; unfold_remote; unfold_go;
    cbn -[Itoa] in *; rewrite Ha; cbn -[Itoa]; rewrite Hd; reflexivity.
Qed.

(** X3. When the dial succeeds and [client.NewSession] fails, the call
    returns ["", "", 0] and the error of [NewSession] as it is; the
    session field is nil, no session is open, the one connection that was
    dialled is, and nothing was started. *)
Theorem remote_call_session_failure (os : OS) (c : call) (r : Remote.t)
    (auths : list AuthMethod) (err : error) :
  let creds := Remote.Credentials r in
  let addr := Credentials.Hostname creds ++ ":" ++ Itoa (Credentials.Port creds) in
  RemoteExec.getSSHAuths os r = inr auths ->
  ssh_Dial os "tcp" addr
           (mkClientConfig (Credentials.Username creds) auths InsecureIgnoreHostKey)
  = None ->
  client_NewSession os = Some err ->
  remote_call os c (RemoteExec.idle r)
  = (Ret (failed err),
     mkRState (Remote.set_sshSession None r) 1 0 [EvDial addr; EvNewSession]).
Proof.
  cbv zeta. intros Ha Hd Hs.
  destruct c; unfold RemoteExec.idle; unfold_remote; unfold_go;
    cbn -[Itoa] in *; rewrite Ha; cbn -[Itoa]; rewrite Hd; cbn -[Itoa]; rewrite Hs;
    reflexivity.
Qed.

Lemma remote_exec_attempts (os : OS) (r : Remote.t) (args : list string) :
  let creds := Remote.Credentials r in
  let tr := trace (snd (RemoteExec.exec os args (RemoteExec.idle r))) in
  (dials tr = [] \/ dials tr = [Credentials.Hostname creds ++ ":" ++ Itoa (Credentials.Port creds)])
  /\ (starts tr = [] \/ starts tr = [SessionCmd (Join args " ")])
  /\ (occurrences is_wait tr <= 1)%nat
  /\ (occurrences is_session_close tr <= 1)%nat.
Proof.
  cbv zeta. unfold occurrences.
  destruct r as [shell sin sout serr creds sess].
  unfold RemoteExec.idle; unfold_remote; unfold_go; cbn -[Itoa Join];
    walk; repeat split; auto.
Qed.

(** X4. One call on a [Remote] is one attempt: it dials at most once, and
    then HOST:PORT of its credentials; it starts at most one command, and
    then the command line of the call; it waits at most once and closes a
    session at most once. *)
Theorem remote_call_single_attempt (os : OS) (c : call) (r : Remote.t) :
  let creds := Remote.Credentials r in
  let tr := trace (snd (remote_call os c (RemoteExec.idle r))) in
  (dials tr = [] \/ dials tr = [Credentials.Hostname creds ++ ":" ++ Itoa (Credentials.Port creds)])
  /\ (starts tr = [] \/ starts tr = [SessionCmd (remote_call_line r c)])
  /\ (occurrences is_wait tr <= 1)%nat
  /\ (occurrences is_session_close tr <= 1)%nat.
Proof.
  destruct c; exact (remote_exec_attempts os r [_]).
Qed.

(** X5. One call on a [Local] starts at most one process, and then the
    command of the call, and waits at most once. *)
Theorem local_call_single_attempt (os : OS) (l : Local.t) (c : call) :
  let tr := snd (local_call os l c) in
  (starts tr = [] \/ starts tr = [LocalCmd (local_call_command l c)])
  /\ (occurrences is_wait tr <= 1)%nat.
Proof.
  cbv zeta. unfold occurrences.
  destruct c; unfold local_call_command, local_command, wire; unfold_local; unfold_go;
    walk; split; auto.
Qed.

(** X6. When a pipe for a captured stream cannot be made, the call on a
    [Local] returns ["", "", 0] and the error of the pipe, and no process
    is started. *)
Theorem local_call_pipe_failure (os : OS) (l : Local.t) (c : call) (e : error) :
  (Local.Stdout l = None -> cmd_Pipe os StdoutS = Some e ->
   local_call os l c = (failed e, [EvPipe StdoutS]))
  /\ (Local.Stderr l = None -> cmd_Pipe os StderrS = Some e ->
      (Local.Stdout l = None -> cmd_Pipe os StdoutS = None) ->
      fst (local_call os l c) = failed e /\ starts (snd (local_call os l c)) = []).
Proof.
  split.
  - intros Ho Hp. destruct c; unfold_local; unfold_go; rewrite Ho, Hp; reflexivity.
  - intros He Hp Hout.
    destruct c; unfold_local; unfold_go; rewrite He, Hp;
      (destruct (Local.Stdout l); [|rewrite Hout by reflexivity]); split; reflexivity.
Qed.

(** X7. When the process was started and reading the captured stdout
    fails, the call on a [Local] returns ["", "", 0] and the read error,
    and [cmd.Wait] is not called. *)
Theorem local_call_drain_failure (os : OS) (l : Local.t) (c : call) (e : error) :
  let p := spawn os (local_call_command l c) in
  (forall s, cmd_Pipe os s = None) ->
  p_start p = None ->
  Local.Stdout l = None ->
  p_readStdout p = Some e ->
  fst (local_call os l c) = failed e
  /\ occurrences is_wait (snd (local_call os l c)) = 0%nat.
Proof.
  cbv zeta. intros Hp Hs Ho Hr. unfold occurrences.
  destruct c; unfold local_call_command, local_command, wire in *; unfold_local; unfold_go;
    rewrite Ho in *; rewrite !Hp; cbn;
    destruct (Local.Stderr l); cbn in *; rewrite Hs; cbn; rewrite Hr; split; reflexivity.
Qed.

(** X8. When [cmd.Wait] returns an exit error whose text is not
    "exit status N" (a child killed by a signal), the call on a [Local]
    returns the captured output, exit code 0 and that exit error. *)
Theorem local_call_unmatched_exit (os : OS) (l : Local.t) (c : call) (msg : string) :
  let p := spawn os (local_call_command l c) in
  (forall s, cmd_Pipe os s = None) ->
  p_start p = None -> p_readStdout p = None -> p_readStderr p = None ->
  p_wait p = Some (ExecExitError msg) ->
  FindStringSubmatch "exit status " msg = None ->
  fst (local_call os l c)
  = mkResult (captured (Local.Stdout l) (p_stdout p)) (captured (Local.Stderr l) (p_stderr p))
             0 (Some (ExecExitError msg)).
Proof.
  cbv zeta. intros Hp Hs Ho He Hw Hm.
  destruct c; unfold local_call_command, local_command, wire, captured in *;
    unfold_local; unfold_go; rewrite !Hp;
    destruct (Local.Stdout l), (Local.Stderr l); cbn -[FindStringSubmatch] in *;
    repeat (first [rewrite Hs | rewrite Ho | rewrite He | rewrite Hw | rewrite Hm];
            cbn -[FindStringSubmatch]);
    reflexivity.
Qed.

Lemma remote_exec_unmatched_exit (os : OS) (r : Remote.t) (args : list string) (msg : string) :
  let p := session_exec os (Join args " ") in
  session_set_up os r ->
  sp_start p = None -> sp_readStdout p = None -> sp_readStderr p = None ->
  sp_wait p = Some (SshExitError msg) ->
  FindStringSubmatch "Process exited with status " msg = None ->
  fst (RemoteExec.exec os args (RemoteExec.idle r))
  = Ret (mkResult (captured (Remote.Stdout r) (sp_stdout p))
                  (captured (Remote.Stderr r) (sp_stderr p))
                  0
                  (match Remote.Stdout r, Remote.Stderr r with
                   | Some _, Some _ => Some (SshExitError msg)
                   | _, _ => None
                   end)).
Proof.
  cbv zeta. intros ([auths Ha] & Hd & Hn' & Hp) Hs Ho He Hw Hm.
  destruct r as [shell sin sout serr creds sess].
  unfold RemoteExec.idle, captured in *. unfold_remote; unfold_go.
  cbn -[FindStringSubmatch Join Itoa] in *. rewrite Ha. cbn -[FindStringSubmatch Join Itoa].
  rewrite Hd. cbn -[FindStringSubmatch Join Itoa]. rewrite Hn'.
  cbn -[FindStringSubmatch Join Itoa]. rewrite !Hp.
  destruct sout, serr; cbn -[FindStringSubmatch Join Itoa] in *;
    repeat (first [rewrite Hs | rewrite Ho | rewrite He | rewrite Hw | rewrite Hm];
            cbn -[FindStringSubmatch Join Itoa]);
    reflexivity.
Qed.

(** X9. When [session.Run] returns an exit error whose text is not
    "Process exited with status N", the call on a [Remote] returns the
    captured output and exit code 0; the exit error is returned only when
    both streams go to sinks of the caller: reading a captured stream
    assigns [err] again, so with a captured stream the error is nil. *)
Theorem remote_call_unmatched_exit (os : OS) (r : Remote.t) (c : call) (msg : string) :
  let p := session_exec os (remote_call_line r c) in
  session_set_up os r ->
  sp_start p = None -> sp_readStdout p = None -> sp_readStderr p = None ->
  sp_wait p = Some (SshExitError msg) ->
  FindStringSubmatch "Process exited with status " msg = None ->
  fst (remote_call os c (RemoteExec.idle r))
  = Ret (mkResult (captured (Remote.Stdout r) (sp_stdout p))
                  (captured (Remote.Stderr r) (sp_stderr p))
                  0
                  (match Remote.Stdout r, Remote.Stderr r with
                   | Some _, Some _ => Some (SshExitError msg)
                   | _, _ => None
                   end)).
Proof.
  cbv zeta. intros Hu Hs Ho He Hw Hm.
  destruct c; exact (remote_exec_unmatched_exit os r [_] msg Hu Hs Ho He Hw Hm).
Qed.

(** X10. [Remote.Shell(s)] is [Remote.Run(shell, "-c", q)] where [q] is
    [s] between two double quotes (nothing in [s] is escaped): the same
    results and the same effects. *)
Theorem Remote_Shell_is_Run_of_quoted (os : OS) (cmd : string) (st : RState) :
  RemoteExec.Shell os cmd st
  = RemoteExec.Run os (Remote.ShellExecutable (self st)) ["-c"; dquote ++ cmd ++ dquote] st.
Proof. reflexivity. Qed.

Lemma Join_merge (a b : string) (rest : list string) :
  Join (a :: b :: rest) " " = Join ((a ++ " " ++ b) :: rest) " ".
Proof.
  unfold Join. destruct rest as [|c rest]; [reflexivity|].
  cbn [String.concat]. rewrite !append_assoc. reflexivity.
Qed.

(** X11. [Remote.Run] does not keep the boundaries of its arguments: two
    arguments and the one argument made of them with a space between, and
    likewise the command with its first argument appended, give the same
    call. *)
Theorem Remote_Run_merges_arguments (os : OS) (cmd a b : string) (rest : list string)
    (st : RState) :
  RemoteExec.Run os cmd (a :: b :: rest) st = RemoteExec.Run os cmd ((a ++ " " ++ b) :: rest) st
  /\ RemoteExec.Run os cmd (a :: b :: rest) st
     = RemoteExec.Run os (cmd ++ " " ++ a) (b :: rest) st.
Proof.
  split.
  - unfold RemoteExec.Run. rewrite Join_merge. reflexivity.
  - unfold RemoteExec.Run. do 2 f_equal.
    unfold Join. cbn [String.concat]. rewrite !append_assoc. reflexivity.
Qed.

(** X12. Every instance that [NewRemote] returns has a shell, a host name
    and a port that are not empty (not 0), and a nil session. *)
Theorem NewRemote_instance_invariant (os : OS) (config : RemoteConfig.t) (r : Remote.t) :
  NewRemote os config = inr r ->
  Remote.ShellExecutable r <> ""
  /\ Credentials.Hostname (Remote.Credentials r) <> ""
  /\ Credentials.Port (Remote.Credentials r) <> 0
  /\ Remote.sshSession r = None.
Proof.
  destruct config as [shell sin sout serr [host port user pw key]].
  unfold NewRemote, defaultPrivateKeyFilename. cbv zeta.
  destruct (Z.eqb_spec port 0) as [->|Hport];
    [|pose proof Hport as Hport'; apply Z.eqb_neq in Hport'];
    destruct shell as [|? ?], host as [|? ?], user as [|? ?], pw as [|? ?], key as [|? ?];
    cbn; rewrite ?Hport'; cbn;
    try (destruct (user_Current os) as [e|u]; cbn; [discriminate|]);
    try (match goal with
         | |- context [match user_Lookup os ?n with _ => _ end] =>
             destruct (user_Lookup os n) as [e'|u']; cbn; [discriminate|]
         end);
    intros H; inversion H; subst; clear H; cbn;
    repeat split; solve [discriminate | assumption | reflexivity].
Qed.

(** X13. With shell, host name, port and user name given and a password
    or a key file given, [NewRemote] does not fail and returns the
    configuration as it is, whatever the system would answer. *)
Theorem NewRemote_complete_config (os : OS) (config : RemoteConfig.t) :
  let c := RemoteConfig.Credentials config in
  RemoteConfig.ShellExecutable config <> "" ->
  Credentials.Hostname c <> "" -> Credentials.Port c <> 0 ->
  Credentials.Username c <> "" ->
  Credentials.Password c <> "" \/ Credentials.PrivateKeyFilename c <> "" ->
  NewRemote os config
  = inr (Remote.mk (RemoteConfig.ShellExecutable config) (RemoteConfig.Stdin config)
                   (RemoteConfig.Stdout config) (RemoteConfig.Stderr config) c None).
Proof.
  destruct config as [shell sin sout serr [host port user pw key]].
  cbn. intros Hsh Hh Hp Hu Hk. unfold NewRemote.
  apply Z.eqb_neq in Hp.
  destruct shell as [|? ?], host as [|? ?], user as [|? ?]; try congruence;
    cbn; rewrite Hp; cbn.
  destruct pw as [|? ?], key as [|? ?]; cbn; try reflexivity.
  destruct Hk; congruence.
Qed.

(** X14. The package-level [Run] and [Shell] start the program (for
    [Shell]: "/bin/sh" with "-c" and the command line) with the
    environment and directory of the caller, no stdin, and both output
    streams captured. *)
Theorem std_runner_commands (os : OS) (c : call) (k : command) :
  In k (starts (snd (std_call os c))) ->
  k = LocalCmd (match c with
                | RunCall cmd args => mkCmd cmd (cmd :: args) [] "" None ToPipe ToPipe
                | ShellCall cmd =>
                    mkCmd "/bin/sh" ["/bin/sh"; "-c"; cmd] [] "" None ToPipe ToPipe
                end).
Proof.
  intros H. destruct c; apply local_exec_starts in H; exact H.
Qed.

(** X15. Whenever a call returns an error that is not an exit error, it
    returns empty stdout, empty stderr and exit code 0 with it. *)
Theorem failure_returns_no_output (os : OS) (c : call) (e : error) :
  is_exit_error e = false ->
  (forall l, r_err (fst (local_call os l c)) = Some e -> fst (local_call os l c) = failed e)
  /\ (forall st res st',
        remote_call os c st = (Ret res, st') -> r_err res = Some e -> res = failed e).
Proof.
  intros He. split.
  - intros l. destruct c; unfold_local; unfold_go;
      walk; intros H; inversion H; subst; try reflexivity; discriminate.
  - intros st res st'. destruct c; unfold_remote; unfold_go;
      walk; intros H; inversion H; subst; clear H; cbn; intros H; inversion H; subst;
      try reflexivity; discriminate.
Qed.

Lemma local_exec_code_sound (os : OS) (l : Local.t) (command : string) (args : list string) :
  r_code (fst (LocalExec.exec os l command args)) <> 0 ->
  exists digits,
    p_wait (spawn os (local_command l command args))
    = Some (ExecExitError ("exit status " ++ digits))
    /\ digits <> "" /\ all_digits digits = true
    /\ Atoi digits = inr (r_code (fst (LocalExec.exec os l command args))).
Proof.
  unfold local_command, wire. unfold_local; unfold_go.
  destruct (Local.Stdout l), (Local.Stderr l); cbn -[FindStringSubmatch Atoi];
    repeat (break_match; cbn -[FindStringSubmatch Atoi]); try congruence; intros _;
    match goal with
    | H : FindStringSubmatch _ _ = Some _ |- _ =>
        apply FindStringSubmatch_sound in H; destruct H as (d & -> & -> & Hne & Hd)
    end;
    exists d; cbn [nth] in *; repeat split; assumption.
Qed.

Lemma remote_exec_code_sound (os : OS) (r : Remote.t) (args : list string) (res : Result)
    (st' : RState) :
  RemoteExec.exec os args (RemoteExec.idle r) = (Ret res, st') ->
  r_code res <> 0 ->
  exists digits,
    sp_wait (session_exec os (Join args " "))
    = Some (SshExitError ("Process exited with status " ++ digits))
    /\ digits <> "" /\ all_digits digits = true /\ Atoi digits = inr (r_code res).
Proof.
  destruct r as [shell sin sout serr creds sess].
  unfold RemoteExec.idle. unfold_remote; unfold_go.
  cbn -[FindStringSubmatch Atoi Join Itoa].
  repeat (break_match; cbn -[FindStringSubmatch Atoi Join Itoa]);
    intros H; inversion H; subst; clear H; cbn; try congruence; intros _;
    match goal with
    | H : FindStringSubmatch _ _ = Some _ |- _ =>
        apply FindStringSubmatch_sound in H; destruct H as (d & -> & -> & Hne & Hd)
    end;
    exists d; cbn [nth] in *; repeat split; assumption.
Qed.

(** X16. An exit code other than 0 is never made up: when a call returns
    one, the wait returned an exit error whose text is "exit status "
    (remote: "Process exited with status ") followed by digits only, and
    the code is the number [strconv.Atoi] reads from these digits. *)
Theorem nonzero_code_is_decoded (os : OS) (c : call) :
  (forall l,
      r_code (fst (local_call os l c)) <> 0 ->
      exists digits,
        p_wait (spawn os (local_call_command l c))
        = Some (ExecExitError ("exit status " ++ digits))
        /\ digits <> "" /\ all_digits digits = true
        /\ Atoi digits = inr (r_code (fst (local_call os l c))))
  /\ (forall r res st',
      remote_call os c (RemoteExec.idle r) = (Ret res, st') ->
      r_code res <> 0 ->
      exists digits,
        sp_wait (session_exec os (remote_call_line r c))
        = Some (SshExitError ("Process exited with status " ++ digits))
        /\ digits <> "" /\ all_digits digits = true /\ Atoi digits = inr (r_code res)).
Proof.
  split.
  - intros l H. destruct c; exact (local_exec_code_sound os l _ _ H).
  - intros r res st' H Hc. destruct c; exact (remote_exec_code_sound os r [_] res st' H Hc).
Qed.

(* ================================================================== *)
(** * TrimSpace *)
(* ================================================================== *)

Section Trim.
Variable pats : list string.
Hypothesis pats_nonempty : Forall (fun u => u <> "") pats.

Lemma length_append (a b : string) : String.length (a ++ b) = (String.length a + String.length b)%nat.
Proof. induction a as [|x a IH]; [reflexivity|]. cbn. rewrite IH. reflexivity. Qed.

Lemma strip_any_sound (s r : string) :
  strip_any pats s = Some r -> exists u, In u pats /\ s = u ++ r.
Proof.
  clear pats_nonempty. induction pats as [|u ps IH]; [discriminate|].
  cbn. destruct (strip_prefix u s) as [d|] eqn:E.
  - intros H. inversion H. subst d. exists u. split; [now left|].
    apply strip_prefix_sound, E.
  - intros H. destruct (IH H) as (u' & Hin & ->). exists u'. split; [now right|reflexivity].
Qed.

Lemma strip_space_shorter (s r : string) :
  strip_space pats s = Some r -> (String.length r < String.length s)%nat.
Proof.
  destruct s as [|c s]; [discriminate|]. cbn [strip_space].
  destruct (asciiSpace c).
  - intros H. inversion H. cbn. lia.
  - intros H. apply strip_any_sound in H. destruct H as (u & Hin & E).
    rewrite E, length_append.
    rewrite Forall_forall in pats_nonempty. specialize (pats_nonempty u Hin).
    destruct u; [congruence|]. cbn. lia.
Qed.

Lemma trim_front_stop (n : nat) (s : string) :
  strip_space pats s = None -> trim_front pats n s = s.
Proof. intros H. destruct n; cbn; [reflexivity|]. rewrite H. reflexivity. Qed.

(** With enough fuel nothing is left to strip. *)
Lemma trim_front_done (n : nat) :
  forall s, (String.length s <= n)%nat -> strip_space pats (trim_front pats n s) = None.
Proof.
  induction n as [|n IH]; intros s Hn.
  - destruct s; [reflexivity | cbn in Hn; lia].
  - cbn. destruct (strip_space pats s) as [r|] eqn:E; [|exact E].
    apply IH. apply strip_space_shorter in E. lia.
Qed.

(** What is left is a suffix of the input. *)
Lemma trim_front_suffix (n : nat) :
  forall s, exists p, s = p ++ trim_front pats n s.
Proof.
  clear pats_nonempty. induction n as [|n IH]; intros s; [exists ""; reflexivity|].
  cbn. destruct (strip_space pats s) as [r|] eqn:E; [|exists ""; reflexivity].
  destruct (IH r) as [p Hp].
  destruct s as [|c s]; [discriminate|]. cbn [strip_space] in E.
  destruct (asciiSpace c).
  - inversion E. subst r. exists (String c p). cbn. rewrite <- Hp. reflexivity.
  - apply strip_any_sound in E. destruct E as (u & _ & E).
    exists (u ++ p). rewrite append_assoc, <- Hp. exact E.
Qed.

Lemma strip_prefix_app_some (u s r x : string) :
  strip_prefix u s = Some r -> strip_prefix u (s ++ x) = Some (r ++ x).
Proof.
  revert s. induction u as [|a u IH]; intros s H.
  - cbn in *. inversion H. reflexivity.
  - destruct s as [|b s]; [discriminate|]. cbn in *.
    destruct (Ascii.eqb a b); [apply IH, H | discriminate].
Qed.

Lemma strip_any_app_some (s r x : string) :
  strip_any pats s = Some r -> exists r', strip_any pats (s ++ x) = Some r'.
Proof.
  clear pats_nonempty. induction pats as [|u ps IH]; [discriminate|].
  cbn. destruct (strip_prefix u s) as [d|] eqn:E.
  - intros _. rewrite (strip_prefix_app_some _ _ _ x E). eauto.
  - intros H. destruct (strip_prefix u (s ++ x)); eauto.
Qed.

(** A prefix of a string with no white space in front has none either. *)
Lemma strip_space_prefix (q x : string) :
  strip_space pats (q ++ x) = None -> strip_space pats q = None.
Proof.
  destruct q as [|c q]; [reflexivity|]. cbn.
  destruct (asciiSpace c); [discriminate|].
  intros H. destruct (strip_any pats (String c q)) as [r|] eqn:E; [|reflexivity].
  destruct (strip_any_app_some _ _ x E) as [r' E']. cbn in E'. congruence.
Qed.
End Trim.

Lemma rev_string_app (a b : string) : rev_string (a ++ b) = rev_string b ++ rev_string a.
Proof.
  induction a as [|x a IH]; cbn; [rewrite append_nil_r; reflexivity|].
  rewrite IH, append_assoc. reflexivity.
Qed.

Lemma rev_string_involutive (s : string) : rev_string (rev_string s) = s.
Proof.
  induction s as [|x s IH]; [reflexivity|]. cbn. rewrite rev_string_app, IH. reflexivity.
Qed.

Lemma rev_string_length (s : string) : String.length (rev_string s) = String.length s.
Proof.
  induction s as [|x s IH]; [reflexivity|]. cbn. rewrite length_append, IH. cbn. lia.
Qed.

Lemma unicode_spaces_nonempty : Forall (fun u => u <> "") unicode_spaces.
Proof. repeat constructor; discriminate. Qed.

Lemma rev_unicode_spaces_nonempty : Forall (fun u => u <> "") (map rev_string unicode_spaces).
Proof. repeat constructor; discriminate. Qed.

Lemma TrimLeft_done (s : string) : strip_space unicode_spaces (TrimLeft s) = None.
Proof. apply trim_front_done; [exact unicode_spaces_nonempty | lia]. Qed.

Lemma TrimRight_prefix (s : string) : exists x, s = TrimRight s ++ x.
Proof.
  unfold TrimRight.
  destruct (trim_front_suffix (map rev_string unicode_spaces) (String.length s) (rev_string s))
    as [p Hp].
  exists (rev_string p).
  rewrite <- rev_string_app, <- Hp, rev_string_involutive. reflexivity.
Qed.

Lemma TrimRight_idempotent (s : string) : TrimRight (TrimRight s) = TrimRight s.
Proof.
  unfold TrimRight at 1. unfold TrimRight at 2. rewrite rev_string_involutive.
  rewrite trim_front_stop; [reflexivity|].
  apply trim_front_done; [exact rev_unicode_spaces_nonempty|].
  rewrite rev_string_length. lia.
Qed.

Lemma TrimSpace_idempotent (s : string) : TrimSpace (TrimSpace s) = TrimSpace s.
Proof.
  unfold TrimSpace.
  assert (H : TrimLeft (TrimRight (TrimLeft s)) = TrimRight (TrimLeft s)).
  { unfold TrimLeft at 1. apply trim_front_stop.
    destruct (TrimRight_prefix (TrimLeft s)) as [x Hx].
    apply (strip_space_prefix _ _ x). rewrite <- Hx. apply TrimLeft_done. }
  rewrite H. apply TrimRight_idempotent.
Qed.

Section TrimMore.
Variable pats : list string.
Hypothesis pats_nonempty : Forall (fun u => u <> "") pats.
Hypothesis pats_no_blank : Forall (fun u => forall x y, u <> x ++ String " " y) pats.

Lemma trim_front_enough (n : nat) :
  forall m s, (String.length s <= n)%nat -> (String.length s <= m)%nat ->
              trim_front pats n s = trim_front pats m s.
Proof.
  clear pats_no_blank.
  induction n as [|n IH]; intros m s Hn Hm.
  - destruct s; [|cbn in Hn; lia]. destruct m; reflexivity.
  - destruct m as [|m].
    + destruct s; [reflexivity | cbn in Hm; lia].
    + cbn. destruct (strip_space pats s) as [r|] eqn:E; [|reflexivity].
      apply (strip_space_shorter pats pats_nonempty) in E. apply IH; lia.
Qed.

Lemma strip_prefix_app_blank (u : string) :
  (forall x y, u <> x ++ String " " y) ->
  forall s, s <> "" ->
  strip_prefix u (s ++ " ") = option_map (fun r => r ++ " ") (strip_prefix u s).
Proof.
  induction u as [|a u IH]; intros Hu s Hs; [reflexivity|].
  destruct s as [|b s]; [congruence|]. cbn.
  destruct (Ascii.eqb_spec a b) as [->|]; [|reflexivity].
  destruct s as [|b' s].
  - cbn. destruct u as [|a' u]; [reflexivity|]. cbn.
    destruct (Ascii.eqb_spec a' " ") as [->|]; [|reflexivity].
    exfalso. apply (Hu (String b "") u). reflexivity.
  - apply IH; [|discriminate].
    intros x y E. apply (Hu (String b x) y). cbn. rewrite E. reflexivity.
Qed.

Lemma strip_any_app_blank (s : string) :
  s <> "" ->
  strip_any pats (s ++ " ") = option_map (fun r => r ++ " ") (strip_any pats s).
Proof.
  clear pats_nonempty. intros Hs.
  induction pats as [|u ps IH]; [reflexivity|].
  inversion pats_no_blank as [|? ? Hu Hps]; subst.
  cbn. rewrite (strip_prefix_app_blank u Hu s Hs).
  destruct (strip_prefix u s); [reflexivity|]. apply IH, Hps.
Qed.

Lemma strip_space_app_blank (s : string) :
  s <> "" ->
  strip_space pats (s ++ " ") = option_map (fun r => r ++ " ") (strip_space pats s).
Proof.
  intros Hs. destruct s as [|c s]; [congruence|].
  change (String c s ++ " ") with (String c (s ++ " ")). cbn [strip_space].
  destruct (asciiSpace c); [reflexivity|].
  change (String c (s ++ " ")) with (String c s ++ " ").
  apply strip_any_app_blank. discriminate.
Qed.
End TrimMore.

Ltac no_blank H x :=
  destruct x as [|? x]; cbn in H;
  [ discriminate H
  | first [discriminate H | injection H as _ H; no_blank H x] ].

Lemma unicode_spaces_no_blank :
  Forall (fun u => forall x y, u <> x ++ String " " y) unicode_spaces.
Proof.
  repeat constructor; intros x y H; vm_compute in H; no_blank H x.
Qed.

Lemma TrimLeft_eq (s : string) :
  TrimLeft s = match strip_space unicode_spaces s with
               | Some r => TrimLeft r
               | None => s
               end.
Proof.
  unfold TrimLeft. destruct s as [|c s]; [reflexivity|].
  cbn [String.length trim_front].
  destruct (strip_space unicode_spaces (String c s)) as [r|] eqn:E; [|reflexivity].
  apply (strip_space_shorter _ unicode_spaces_nonempty) in E. cbn in E.
  apply (trim_front_enough _ unicode_spaces_nonempty); lia.
Qed.

Lemma TrimLeft_app_blank (n : nat) :
  forall s, (String.length s <= n)%nat ->
            TrimLeft (s ++ " ") = match TrimLeft s with
                                  | EmptyString => EmptyString
                                  | t => t ++ " "
                                  end.
Proof.
  induction n as [|n IH]; intros s Hn.
  - destruct s; [reflexivity | cbn in Hn; lia].
  - destruct s as [|c s]; [reflexivity|].
    rewrite (TrimLeft_eq (String c s ++ " ")), (TrimLeft_eq (String c s)).
    rewrite (strip_space_app_blank _ unicode_spaces_no_blank) by discriminate.
    destruct (strip_space unicode_spaces (String c s)) as [r|] eqn:E; cbn [option_map].
    + apply IH. apply (strip_space_shorter _ unicode_spaces_nonempty) in E. cbn in *. lia.
    + reflexivity.
Qed.

Lemma TrimRight_app_blank (t : string) : TrimRight (t ++ " ") = TrimRight t.
Proof.
  unfold TrimRight. rewrite rev_string_app, length_append.
  replace (String.length t + String.length " ")%nat with (S (String.length t)) by (cbn; lia).
  reflexivity.
Qed.

(** A blank at the end does not show after [TrimSpace]. *)
Lemma TrimSpace_app_blank (s : string) : TrimSpace (s ++ " ") = TrimSpace s.
Proof.
  unfold TrimSpace. rewrite (TrimLeft_app_blank (String.length s) s) by lia.
  destruct (TrimLeft s) as [|c t]; [reflexivity|].
  apply TrimRight_app_blank.
Qed.

Lemma TrimSpace_no_space_in_front (s : string) :
  match TrimSpace s with
  | EmptyString => True
  | String c _ => asciiSpace c = false
  end.
Proof.
  destruct (TrimSpace s) as [|c t] eqn:E; [exact I|].
  assert (H : strip_space unicode_spaces (TrimSpace s) = None).
  { unfold TrimSpace. destruct (TrimRight_prefix (TrimLeft s)) as [x Hx].
    apply (strip_space_prefix _ _ x). rewrite <- Hx. apply TrimLeft_done. }
  rewrite E in H. cbn in H. destruct (asciiSpace c); [discriminate | reflexivity].
Qed.

Lemma TrimSpace_no_space_at_end (s : string) :
  match rev_string (TrimSpace s) with
  | EmptyString => True
  | String c _ => asciiSpace c = false
  end.
Proof.
  destruct (rev_string (TrimSpace s)) as [|c t] eqn:E; [exact I|].
  assert (H : strip_space (map rev_string unicode_spaces) (rev_string (TrimSpace s)) = None).
  { unfold TrimSpace, TrimRight. rewrite rev_string_involutive.
    apply trim_front_done; [exact rev_unicode_spaces_nonempty|].
    rewrite rev_string_length. lia. }
  rewrite E in H. cbn [strip_space] in H. destruct (asciiSpace c); [discriminate | reflexivity].
Qed.

(* ================================================================== *)
(** * The formatting methods *)
(* ================================================================== *)

Lemma TrimSpace_trimmed (s : string) : trimmed (TrimSpace s).
Proof.
  split; [apply TrimSpace_idempotent|].
  split; [apply TrimSpace_no_space_in_front | apply TrimSpace_no_space_at_end].
Qed.

(** X17. What [FormatRun] and [FormatShell] return, on a [Local], on the
    standard runner and on a [Remote], is a fixed point of
    [strings.TrimSpace] and neither begins nor ends with a space, tab, line
    feed, vertical tab, form feed or carriage return. *)
Theorem formats_are_trimmed (c : call) :
  (forall l, trimmed (local_call_format l c))
  /\ trimmed (std_call_format c)
  /\ (forall r, trimmed (remote_call_format r c)).
Proof.
  repeat split; intros; destruct c; apply TrimSpace_trimmed.
Qed.

(** X18. [Local.FormatRun] is the argument vector that [Local.Run] starts,
    joined with single spaces and trimmed; without arguments it is the
    trimmed command (the separator does not show); it does not depend on
    the executor, so the package-level [FormatRun] is the same. *)
Theorem Local_FormatRun_shows_argv (os : OS) (l : Local.t) (cmd : string) (args : list string) :
  LocalFormat.FormatRun l cmd args = TrimSpace (Join (cmd :: args) " ")
  /\ LocalFormat.FormatRun l cmd [] = TrimSpace cmd
  /\ FormatRun cmd args = LocalFormat.FormatRun l cmd args
  /\ (forall k, In k (starts (snd (LocalExec.Run os l cmd args))) ->
      exists c, k = LocalCmd c
                /\ LocalFormat.FormatRun l cmd args = TrimSpace (Join (Args c) " ")).
Proof.
  assert (E : LocalFormat.FormatRun l cmd args = TrimSpace (Join (cmd :: args) " ")).
  { unfold LocalFormat.FormatRun. destruct args as [|a args]; [|reflexivity].
    exact (TrimSpace_app_blank cmd). }
  repeat apply conj.
  - exact E.
  - exact (TrimSpace_app_blank cmd).
  - reflexivity.
  - intros k Hk. apply local_exec_starts in Hk. subst k. eexists. split; [reflexivity|].
    exact E.
Qed.

Lemma Local_FormatRun_shows_argv_witness :
  exists c, LocalCmd (local_command Sample.local "uname" ["-a"]) = LocalCmd c
            /\ LocalFormat.FormatRun Sample.local "uname" ["-a"] = TrimSpace (Join (Args c) " ").
Proof.
  refine (proj2 (proj2 (proj2 (Local_FormatRun_shows_argv Worlds.quiet Sample.local
                                                          "uname" ["-a"]))) _ _).
  vm_compute. left. reflexivity.
Defined.

(** X19. What [Remote.FormatRun] and [Remote.FormatShell] return is
    "ssh USER@HOST " followed by the very command line that [Run] and
    [Shell] submit, trimmed. *)
Theorem Remote_format_shows_submitted_line (os : OS) (r : Remote.t) (c : call) (k : command) :
  In k (starts (trace (snd (remote_call os c (RemoteExec.idle r))))) ->
  exists line,
    k = SessionCmd line
    /\ remote_call_format r c
       = TrimSpace ("ssh " ++ Credentials.Username (Remote.Credentials r) ++ "@"
                    ++ Credentials.Hostname (Remote.Credentials r) ++ " " ++ line).
Proof.
  intros H.
  assert (Hk : k = SessionCmd (remote_call_line r c)).
  { destruct c; exact (remote_exec_starts os [_] r k H). }
  subst k. eexists. split; [reflexivity|]. destruct c; reflexivity.
Qed.

Lemma Remote_format_shows_submitted_line_witness :
  exists line,
    SessionCmd "/bin/ls -1" = SessionCmd line
    /\ remote_call_format Sample.remote (RunCall "/bin/ls" ["-1"])
       = TrimSpace ("ssh " ++ "alice" ++ "@" ++ "localhost" ++ " " ++ line).
Proof.
  refine (Remote_format_shows_submitted_line Worlds.quiet Sample.remote
                                             (RunCall "/bin/ls" ["-1"]) _ _).
  vm_compute. left. reflexivity.
Defined.

(** X20. [FormatRun] adds no quoting: two arguments and the one argument
    made of them with a space between are formatted alike, on a [Local]
    and on a [Remote]. *)
Theorem FormatRun_merges_arguments (cmd a b : string) (rest : list string) :
  (forall l, LocalFormat.FormatRun l cmd (a :: b :: rest)
             = LocalFormat.FormatRun l cmd ((a ++ " " ++ b) :: rest))
  /\ (forall r, RemoteFormat.FormatRun r cmd (a :: b :: rest)
                = RemoteFormat.FormatRun r cmd ((a ++ " " ++ b) :: rest)).
Proof.
  split; intros;
    unfold LocalFormat.FormatRun, RemoteFormat.FormatRun; rewrite Join_merge; reflexivity.
Qed.

Lemma remote_exec_pipe_failure (os : OS) (r : Remote.t) (args : list string) (e : error) :
  (exists auths, RemoteExec.getSSHAuths os r = inr auths) ->
  (forall addr config, ssh_Dial os "tcp" addr config = None) ->
  client_NewSession os = None ->
  Remote.Stdout r = None ->
  session_Pipe os StdoutS = Some e ->
  fst (RemoteExec.exec os args (RemoteExec.idle r)) = Ret (failed e)
  /\ starts (trace (snd (RemoteExec.exec os args (RemoteExec.idle r)))) = []
  /\ occurrences is_session_close (trace (snd (RemoteExec.exec os args (RemoteExec.idle r))))
     = 1%nat
  /\ open_sessions (snd (RemoteExec.exec os args (RemoteExec.idle r))) = 0%nat
  /\ Remote.sshSession (self (snd (RemoteExec.exec os args (RemoteExec.idle r)))) = None.
Proof.
  intros [auths Ha] Hd Hn' Ho Hp.
  destruct r as [shell sin sout serr creds sess]. cbn in Ho. subst sout.
  unfold RemoteExec.idle, occurrences. unfold_remote; unfold_go.
  cbn -[Join Itoa] in *. rewrite Ha. cbn -[Join Itoa]. rewrite Hd. cbn -[Join Itoa].
  rewrite Hn'. cbn -[Join Itoa]. rewrite Hp. cbn. repeat split.
Qed.

(** X21. When connection and session are set up and the pipe for the
    captured stdout cannot be made, the call on a [Remote] returns
    ["", "", 0] and the error of the pipe; nothing was started, and the
    session was closed once: none is open and the field is nil. *)
Theorem remote_call_pipe_failure (os : OS) (r : Remote.t) (c : call) (e : error) :
  (exists auths, RemoteExec.getSSHAuths os r = inr auths) ->
  (forall addr config, ssh_Dial os "tcp" addr config = None) ->
  client_NewSession os = None ->
  Remote.Stdout r = None ->
  session_Pipe os StdoutS = Some e ->
  fst (remote_call os c (RemoteExec.idle r)) = Ret (failed e)
  /\ starts (trace (snd (remote_call os c (RemoteExec.idle r)))) = []
  /\ occurrences is_session_close (trace (snd (remote_call os c (RemoteExec.idle r)))) = 1%nat
  /\ open_sessions (snd (remote_call os c (RemoteExec.idle r))) = 0%nat
  /\ Remote.sshSession (self (snd (remote_call os c (RemoteExec.idle r)))) = None.
Proof.
  intros Ha Hd Hn Ho Hp.
  destruct c; exact (remote_exec_pipe_failure os r [_] e Ha Hd Hn Ho Hp).
Qed.

(** X22. A [Local] made by [NewLocal] runs its commands with the
    environment, the directory and the stdin of the configuration, each
    output stream going to the sink of the configuration or to a pipe. *)
Theorem NewLocal_then_call (os : OS) (config : LocalConfig.t) (c : call) (k : command) :
  In k (starts (snd (local_call os (NewLocal config) c))) ->
  exists cmd,
    k = LocalCmd cmd
    /\ cmd_Env cmd = LocalConfig.Env config
    /\ cmd_Dir cmd = LocalConfig.Dir config
    /\ cmd_Stdin cmd = LocalConfig.Stdin config
    /\ cmd_Stdout cmd = wire (LocalConfig.Stdout config)
    /\ cmd_Stderr cmd = wire (LocalConfig.Stderr config)
    /\ Args cmd = match c with
                  | RunCall name args => name :: args
                  | ShellCall line => [Local.ShellExecutable (NewLocal config); "-c"; line]
                  end.
Proof.
  intros H.
  assert (Hk : k = LocalCmd (local_call_command (NewLocal config) c)).
  { destruct c; apply local_exec_starts in H; exact H. }
  subst k. eexists. split; [reflexivity|].
  destruct (NewLocal_fields config) as (E1 & E2 & E3 & E4 & E5).
  destruct c; cbn; rewrite ?E1, ?E2, ?E3, ?E4, ?E5; repeat split.
Qed.

Lemma NewRemote_default_address (os : OS) (config : RemoteConfig.t) (r : Remote.t) :
  NewRemote os config = inr r ->
  Credentials.Hostname (RemoteConfig.Credentials config) = "" ->
  Credentials.Port (RemoteConfig.Credentials config) = 0 ->
  Credentials.Hostname (Remote.Credentials r) = "localhost"
  /\ Credentials.Port (Remote.Credentials r) = 22.
Proof.
  destruct config as [shell sin sout serr [host port user pw key]].
  cbn. intros H -> ->. revert H.
  unfold NewRemote, defaultPrivateKeyFilename. cbv zeta.
  destruct shell as [|? ?], user as [|? ?], pw as [|? ?], key as [|? ?]; cbn;
    try (destruct (user_Current os) as [e|u]; cbn; [discriminate|]);
    try (match goal with
         | |- context [match user_Lookup os ?n with _ => _ end] =>
             destruct (user_Lookup os n) as [e'|u']; cbn; [discriminate|]
         end);
    intros H; inversion H; subst; clear H; cbn; split; reflexivity.
Qed.

(** X23. A [Remote] made by [NewRemote] from a configuration without host
    name and port dials "localhost:22" and nothing else. *)
Theorem NewRemote_defaults_then_call (os : OS) (config : RemoteConfig.t) (r : Remote.t)
    (c : call) (addr : string) :
  NewRemote os config = inr r ->
  Credentials.Hostname (RemoteConfig.Credentials config) = "" ->
  Credentials.Port (RemoteConfig.Credentials config) = 0 ->
  In addr (dials (trace (snd (remote_call os c (RemoteExec.idle r))))) ->
  addr = "localhost:22".
Proof.
  intros Hr Hh Hp Hin.
  destruct (NewRemote_default_address os config r Hr Hh Hp) as (Ehost & Eport).
  assert (Hd : dials (trace (snd (remote_call os c (RemoteExec.idle r)))) = []
               \/ dials (trace (snd (remote_call os c (RemoteExec.idle r))))
                  = [Credentials.Hostname (Remote.Credentials r) ++ ":"
                     ++ Itoa (Credentials.Port (Remote.Credentials r))]).
  { destruct c; exact (proj1 (remote_exec_attempts os r [_])). }
  destruct Hd as [Hd|Hd]; rewrite Hd in Hin; cbn in Hin; [contradiction|].
  destruct Hin as [<-|[]]. rewrite Ehost, Eport. reflexivity.
Qed.

Lemma remote_call_pipe_failure_witness :
  fst (remote_call (Worlds.with_session_Pipe (fun _ => Some (OtherError "ssh: StdoutPipe"))
                                             Worlds.quiet)
                   (RunCall "/bin/ls" []) (RemoteExec.idle Sample.remote))
  = Ret (failed (OtherError "ssh: StdoutPipe")).
Proof.
  refine (proj1 (remote_call_pipe_failure
                   (Worlds.with_session_Pipe (fun _ => Some (OtherError "ssh: StdoutPipe"))
                                             Worlds.quiet)
                   Sample.remote (RunCall "/bin/ls" []) (OtherError "ssh: StdoutPipe")
                   _ _ _ _ _)).
  - eexists. reflexivity.
  - reflexivity.
  - reflexivity.
  - reflexivity.
  - reflexivity.
Defined.

Lemma NewLocal_then_call_witness :
  exists cmd,
    LocalCmd (mkCmd "/bin/env" ["/bin/env"] ["FIRST=1st"] "/" None ToPipe (ToWriter 4%nat))
    = LocalCmd cmd
    /\ cmd_Env cmd = ["FIRST=1st"]
    /\ cmd_Dir cmd = "/"
    /\ cmd_Stdin cmd = None
    /\ cmd_Stdout cmd = ToPipe
    /\ cmd_Stderr cmd = ToWriter 4%nat
    /\ Args cmd = ["/bin/env"].
Proof.
  refine (NewLocal_then_call Worlds.quiet
            (LocalConfig.mk "" ["FIRST=1st"] "/" None None (Some 4%nat))
            (RunCall "/bin/env" []) _ _).
  vm_compute. left. reflexivity.
Defined.

Lemma NewRemote_defaults_then_call_witness : "localhost:22" = "localhost:22".
Proof.
  refine (NewRemote_defaults_then_call Worlds.quiet RemoteConfig.zero Sample.remote
                                       (ShellCall "true") "localhost:22" _ _ _ _).
  - reflexivity.
  - reflexivity.
  - reflexivity.
  - vm_compute. left. reflexivity.
Defined.

(* ================================================================== *)
(** * Witnesses *)
(* ================================================================== *)

Lemma remote_call_dial_failure_witness :
  remote_call Worlds.refused (RunCall "/bin/ls" ["-1"]) (RemoteExec.idle Sample.remote)
  = (Ret (failed (OtherError
                    "run: connection to alice@localhost failed: ssh: handshake failed")),
     mkRState Sample.remote 0 0 [EvDial "localhost:22"]).
Proof.
  refine (remote_call_dial_failure Worlds.refused (RunCall "/bin/ls" ["-1"]) Sample.remote
                                   [ssh_PublicKeys ["file-key"]]
                                   (OtherError "ssh: handshake failed") _ _); reflexivity.
Defined.

Lemma remote_call_session_failure_witness :
  remote_call Worlds.no_session (ShellCall "true") (RemoteExec.idle Sample.remote)
  = (Ret (failed (OtherError "ssh: rejected")),
     mkRState (Remote.set_sshSession None Sample.remote) 1 0
              [EvDial "localhost:22"; EvNewSession]).
Proof.
  refine (remote_call_session_failure Worlds.no_session (ShellCall "true") Sample.remote
                                      [ssh_PublicKeys ["file-key"]]
                                      (OtherError "ssh: rejected") _ _ _); reflexivity.
Defined.

Lemma local_call_pipe_failure_witness :
  local_call Worlds.no_pipes Sample.local (RunCall "/bin/true" [])
  = (failed (OtherError "pipe: too many open files"), [EvPipe StdoutS]).
Proof.
  refine (proj1 (local_call_pipe_failure Worlds.no_pipes Sample.local (RunCall "/bin/true" [])
                                         (OtherError "pipe: too many open files")) _ _);
    reflexivity.
Defined.

Lemma local_call_drain_failure_witness :
  fst (local_call Worlds.broken_stdout Sample.local (RunCall "/bin/ls" []))
  = failed (OtherError "read |0: input/output error")
  /\ occurrences is_wait (snd (local_call Worlds.broken_stdout Sample.local
                                          (RunCall "/bin/ls" []))) = 0%nat.
Proof.
  refine (local_call_drain_failure Worlds.broken_stdout Sample.local (RunCall "/bin/ls" [])
                                   (OtherError "read |0: input/output error") _ _ _ _);
    reflexivity.
Defined.

Lemma local_call_unmatched_exit_witness :
  fst (local_call Worlds.killed Sample.local (RunCall "/bin/sleep" ["60"]))
  = mkResult "partial" "" 0 (Some (ExecExitError "signal: killed")).
Proof.
  refine (local_call_unmatched_exit Worlds.killed Sample.local (RunCall "/bin/sleep" ["60"])
                                    "signal: killed" _ _ _ _ _ _);
    reflexivity.
Defined.

Lemma remote_call_unmatched_exit_witness :
  fst (remote_call Worlds.terminated (RunCall "/bin/sleep" ["60"])
                   (RemoteExec.idle Sample.remote))
  = Ret (mkResult "partial" "" 0 None).
Proof.
  refine (remote_call_unmatched_exit Worlds.terminated Sample.remote
                                     (RunCall "/bin/sleep" ["60"])
                                     "Process exited with status 143 from signal TERM"
                                     _ _ _ _ _ _);
    try reflexivity.
  repeat split; try reflexivity. eexists. reflexivity.
Defined.

Lemma NewRemote_instance_invariant_witness :
  Remote.ShellExecutable Sample.remote <> ""
  /\ Credentials.Hostname (Remote.Credentials Sample.remote) <> ""
  /\ Credentials.Port (Remote.Credentials Sample.remote) <> 0
  /\ Remote.sshSession Sample.remote = None.
Proof.
  refine (NewRemote_instance_invariant Worlds.quiet RemoteConfig.zero Sample.remote _).
  reflexivity.
Defined.

Lemma NewRemote_complete_config_witness :
  NewRemote Worlds.refused Worlds.complete
  = inr (Remote.mk "/bin/bash" None None None
                   (Credentials.mk "build.example.org" 2222 "buildman" "secret" "") None).
Proof.
  refine (NewRemote_complete_config Worlds.refused Worlds.complete _ _ _ _ _);
    try discriminate.
  left. discriminate.
Defined.

Lemma std_runner_commands_witness :
  LocalCmd (mkCmd "/bin/sh" ["/bin/sh"; "-c"; "id | cut -f1"] [] "" None ToPipe ToPipe)
  = LocalCmd (mkCmd "/bin/sh" ["/bin/sh"; "-c"; "id | cut -f1"] [] "" None ToPipe ToPipe).
Proof.
  refine (std_runner_commands Worlds.quiet (ShellCall "id | cut -f1") _ _).
  vm_compute. left. reflexivity.
Defined.

Lemma failure_returns_no_output_witness :
  fst (local_call Worlds.broken_stdout Sample.local (RunCall "/bin/ls" []))
  = failed (OtherError "read |0: input/output error").
Proof.
  refine (proj1 (failure_returns_no_output Worlds.broken_stdout (RunCall "/bin/ls" [])
                                           (OtherError "read |0: input/output error") _)
                Sample.local _); reflexivity.
Defined.

Lemma nonzero_code_is_decoded_witness :
  exists digits,
    p_wait (spawn (Sample.world "" "" 2) (local_call_command Sample.local (RunCall "/bin/ls" ["/xyzzy"])))
    = Some (ExecExitError ("exit status " ++ digits))
    /\ digits <> "" /\ all_digits digits = true
    /\ Atoi digits = inr (r_code (fst (local_call (Sample.world "" "" 2) Sample.local
                                                  (RunCall "/bin/ls" ["/xyzzy"])))).
Proof.
  refine (proj1 (nonzero_code_is_decoded (Sample.world "" "" 2) (RunCall "/bin/ls" ["/xyzzy"]))
                Sample.local _).
  vm_compute. discriminate.
Defined.
